(** * Ionic range slider and pull-to-refresh: a shallow embedding

    Two components are embedded:
    - [src/components/range/range.ts] (classes [RangeKnob] and [Range]),
      in module [Slider];
    - [packages/core/src/components/refresher/refresher.tsx] (class
      [Refresher]), in module [Pull].

    Number model.  A JavaScript [number] that is finite is a rational
    ([Q]); the integer-valued fields of the slider ([_min], [_max],
    [_step], a knob's [_val]) are [Z], because every write to them goes
    through [Math.round].  Rounding error and the infinities are outside
    this model.  [NaN] is inside it where the source itself tests for it:
    the value handed to a knob's [value] setter and the argument of the
    [min]/[max]/[step] setters (see [Slider.jsval]), and the [deltaY] of
    a move sample of the refresher (see [Pull.Delta] and
    [Pull.onMove_any]).  Division is [Qdiv]; it agrees with JavaScript
    whenever the divisor is not zero, and every statement below that
    depends on a quotient assumes a non-zero divisor. *)

From Stdlib Require Import ZArith QArith Qround Qminmax Qabs.
From Stdlib Require Import Lia Lqa List Bool String.
Import ListNotations.

Local Open Scope Q_scope.

(** ** JavaScript built-ins used by both components *)

(** [Math.round]: the closest integer, a tie going towards +infinity. *)
Definition Math_round (x : Q) : Z := Qfloor (x + (1 # 2)).

Definition Math_min (a b : Q) : Q := Qmin a b.
Definition Math_max (a b : Q) : Q := Qmax a b.
Definition Math_abs (a : Q) : Q := Qabs a.

(** Strict and non-strict comparisons on numbers, as booleans. *)
Definition Qltb (a b : Q) : bool := negb (Qle_bool b a).
Definition Qgtb (a b : Q) : bool := Qltb b a.

(** A synchronous run either returns or throws; in both cases the
    mutations made so far persist. *)
Inductive result (S : Type) : Type :=
| Returns (s : S)
| Throws (s : S).
Arguments Returns {S} s.
Arguments Throws {S} s.

Definition state_of {S : Type} (o : result S) : S :=
  match o with Returns s | Throws s => s end.

Definition andThen {S : Type} (o : result S) (k : S -> result S) : result S :=
  match o with
  | Returns s => k s
  | Throws s => Throws s
  end.

Notation "o >>> k" := (andThen o k) (at level 50, left associativity).

Definition returned {S : Type} (o : result S) : bool :=
  match o with Returns _ => true | Throws _ => false end.

Module Slider.

(** *** Values that cross the component boundary *)

(** What [writeValue], the [value] setter and the [min], [max] and
    [step] setters may be handed.  A number is finite or [NaN] (the
    infinities are outside the model); a string is kept as the number it
    converts to ([None] when it converts to [NaN]); an object is kept as
    its [lower] and [upper] properties. *)
Inductive jsval : Type :=
| JUndefined
| JNull
| JNaN
| JNum (n : Q)
| JStr (tonum : option Q)
| JObj (lower upper : jsval).

(** Modelled from the spec: [isPresent], [isNumber], [isString] and
    [clamp] of [util/util] are not among the sources.  "When a value is
    supplied" is read as neither [undefined] nor [null]; [isNumber] and
    [isString] are the [typeof] tests their names say. *)
Definition isPresent (v : jsval) : bool :=
  match v with JUndefined | JNull => false | _ => true end.

Definition isNumber (v : jsval) : bool :=
  match v with JNaN | JNum _ => true | _ => false end.

Definition isString (v : jsval) : bool :=
  match v with JStr _ => true | _ => false end.

(** Modelled from the spec: [clamp(min, n, max)] of [util/util], "clamp
    [value] to [min, max]": [Math.max(min, Math.min(n, max))]. *)
Definition clamp (min n max : Q) : Q := Math_max min (Math_min n max).

(** Property reads [val.lower] and [val.upper] on a present value: a
    primitive has neither property. *)
Definition get_lower (v : jsval) : jsval :=
  match v with JObj l _ => l | _ => JUndefined end.

Definition get_upper (v : jsval) : jsval :=
  match v with JObj _ u => u | _ => JUndefined end.

(** A style text: the empty text, or the template [`${q}%`]. *)
Inductive css : Type :=
| Blank
| Percent (q : Q).

(** *** RangeKnob: the fields *)

Record RangeKnob : Type := mkKnob {
  _ratio : Q;
  _val : Z;
  _x : css;
  pressed : bool;
  upper : bool
}.

(** The [QueryList] of knobs: the template always has the first handle
    and has the second under [*ngIf="_dual"]; with one knob [first] and
    [last] are the same object. *)
Inductive Knobs : Type :=
| OneKnob (k : RangeKnob)
| TwoKnobs (k1 k2 : RangeKnob).

Inductive KnobRef : Type := RefFirst | RefLast.

Definition knob (ks : Knobs) (ref : KnobRef) : RangeKnob :=
  match ks, ref with
  | OneKnob k, _ => k
  | TwoKnobs k1 _, RefFirst => k1
  | TwoKnobs _ k2, RefLast => k2
  end.

Definition store (ks : Knobs) (ref : KnobRef) (k : RangeKnob) : Knobs :=
  match ks, ref with
  | OneKnob _, _ => OneKnob k
  | TwoKnobs _ k2, RefFirst => TwoKnobs k k2
  | TwoKnobs k1 _, RefLast => TwoKnobs k1 k
  end.

Record Coordinates : Type := mkCoord { x : Q; y : Q }.

Record ClientRect : Type := mkRect {
  left : Q;
  right : Q;
  width : Q;
  xOffset : Q
}.

Record Tick : Type := mkTick {
  tick_ratio : Q;
  tick_left : css;
  tick_active : bool
}.

(** What the host application observes: calls of the registered change
    callback and emissions of [ionChange], oldest first. *)
Inductive Call : Type :=
| OnChange (v : jsval)
| IonChange.

(** *** Range: the fields *)

Record Range : Type := mkRange {
  _dual : bool;
  _pressed : bool;
  _active : option KnobRef;
  _start : option Coordinates;
  _rect : option ClientRect;
  _ticks : option (list Tick);
  _barL : css;
  _barR : css;
  _min : Z;
  _max : Z;
  _step : Z;
  _snaps : bool;
  value : jsval;
  _knobs : option Knobs;
  calls : list Call
}.

(** Field updates ([this.f = v]). *)
Definition with_pressed (v : bool) (r : Range) : Range :=
  mkRange (_dual r) v (_active r) (_start r) (_rect r) (_ticks r) (_barL r)
    (_barR r) (_min r) (_max r) (_step r) (_snaps r) (value r) (_knobs r)
    (calls r).

Definition with_active (v : option KnobRef) (r : Range) : Range :=
  mkRange (_dual r) (_pressed r) v (_start r) (_rect r) (_ticks r) (_barL r)
    (_barR r) (_min r) (_max r) (_step r) (_snaps r) (value r) (_knobs r)
    (calls r).

Definition with_start (v : option Coordinates) (r : Range) : Range :=
  mkRange (_dual r) (_pressed r) (_active r) v (_rect r) (_ticks r) (_barL r)
    (_barR r) (_min r) (_max r) (_step r) (_snaps r) (value r) (_knobs r)
    (calls r).

Definition with_rect (v : option ClientRect) (r : Range) : Range :=
  mkRange (_dual r) (_pressed r) (_active r) (_start r) v (_ticks r) (_barL r)
    (_barR r) (_min r) (_max r) (_step r) (_snaps r) (value r) (_knobs r)
    (calls r).

Definition with_ticks (v : option (list Tick)) (r : Range) : Range :=
  mkRange (_dual r) (_pressed r) (_active r) (_start r) (_rect r) v (_barL r)
    (_barR r) (_min r) (_max r) (_step r) (_snaps r) (value r) (_knobs r)
    (calls r).

Definition with_bar (l rt : css) (r : Range) : Range :=
  mkRange (_dual r) (_pressed r) (_active r) (_start r) (_rect r) (_ticks r) l
    rt (_min r) (_max r) (_step r) (_snaps r) (value r) (_knobs r)
    (calls r).

Definition with_min (v : Z) (r : Range) : Range :=
  mkRange (_dual r) (_pressed r) (_active r) (_start r) (_rect r) (_ticks r)
    (_barL r) (_barR r) v (_max r) (_step r) (_snaps r) (value r) (_knobs r)
    (calls r).

Definition with_max (v : Z) (r : Range) : Range :=
  mkRange (_dual r) (_pressed r) (_active r) (_start r) (_rect r) (_ticks r)
    (_barL r) (_barR r) (_min r) v (_step r) (_snaps r) (value r) (_knobs r)
    (calls r).

Definition with_step (v : Z) (r : Range) : Range :=
  mkRange (_dual r) (_pressed r) (_active r) (_start r) (_rect r) (_ticks r)
    (_barL r) (_barR r) (_min r) (_max r) v (_snaps r) (value r) (_knobs r)
    (calls r).

Definition with_value (v : jsval) (r : Range) : Range :=
  mkRange (_dual r) (_pressed r) (_active r) (_start r) (_rect r) (_ticks r)
    (_barL r) (_barR r) (_min r) (_max r) (_step r) (_snaps r) v (_knobs r)
    (calls r).

Definition with_knobs (v : option Knobs) (r : Range) : Range :=
  mkRange (_dual r) (_pressed r) (_active r) (_start r) (_rect r) (_ticks r)
    (_barL r) (_barR r) (_min r) (_max r) (_step r) (_snaps r) (value r) v
    (calls r).

Definition record_call (c : Call) (r : Range) : Range :=
  mkRange (_dual r) (_pressed r) (_active r) (_start r) (_rect r) (_ticks r)
    (_barL r) (_barR r) (_min r) (_max r) (_step r) (_snaps r) (value r)
    (_knobs r) (calls r ++ [c]).

(** [ToNumber], as applied by [Math.round] to its argument. *)
Definition ToNumber (v : jsval) : option Q :=
  match v with
  | JNum n => Some n
  | JStr t => t
  | JNull => Some 0
  | JUndefined | JNaN | JObj _ _ => None
  end.

(** *** Range: the [min], [max] and [step] inputs *)

Definition set_min (val : jsval) (r : Range) : Range :=
  match ToNumber val with
  | Some n => with_min (Math_round n) r
  | None => r
  end.

Definition set_max (val : jsval) (r : Range) : Range :=
  match ToNumber val with
  | Some n => with_max (Math_round n) r
  | None => r
  end.

Definition set_step (val : jsval) (r : Range) : Range :=
  match ToNumber val with
  | Some n =>
      let val := Math_round n in
      if (0 <? val)%Z then with_step val r else r
  | None => r
  end.

(** *** Range: value mapping *)

Definition ratioToValue (r : Range) (ratio : Q) : Z :=
  let ratio := Math_round (inject_Z (_max r - _min r) * ratio + inject_Z (_min r)) in
  (Math_round (inject_Z ratio / inject_Z (_step r)) * _step r)%Z.

Definition valueToRatio (r : Range) (value : Q) : Q :=
  let value :=
    (Math_round (clamp (inject_Z (_min r)) value (inject_Z (_max r))
                 / inject_Z (_step r)) * _step r)%Z in
  inject_Z (value - _min r) / inject_Z (_max r - _min r).

(** *** RangeKnob: accessors *)

(** [set ratio(ratio)]. *)
Definition set_ratio (range : Range) (ratio : Q) (k : RangeKnob) : RangeKnob :=
  let ratio1 := clamp 0 ratio 1 in
  let val := ratioToValue range ratio1 in
  let ratio2 := if _snaps range then valueToRatio range (inject_Z val) else ratio1 in
  mkKnob ratio2 val (_x k) (pressed k) (upper k).

(** [set value(val)]. *)
Definition set_value (range : Range) (val : jsval) (k : RangeKnob) : RangeKnob :=
  let val :=
    if isString val then
      match ToNumber val with
      | Some n => JNum (inject_Z (Math_round n))
      | None => JNaN
      end
    else val in
  match val with
  | JNum n =>
      let ratio := valueToRatio range n in
      mkKnob ratio (ratioToValue range ratio) (_x k) (pressed k) (upper k)
  | _ => k
  end.

(** [position()]. *)
Definition position (k : RangeKnob) : RangeKnob :=
  mkKnob (_ratio k) (_val k) (Percent (_ratio k * 100)) (pressed k) (upper k).

Definition press (v : bool) (k : RangeKnob) : RangeKnob :=
  mkKnob (_ratio k) (_val k) (_x k) v (upper k).

(** *** Range: the [ratio] and [ratioUpper] getters *)

Definition Range_ratio (r : Range) (ks : Knobs) : Q :=
  if _dual r then Math_min (_ratio (knob ks RefFirst)) (_ratio (knob ks RefLast))
  else _ratio (knob ks RefFirst).

Definition Range_ratioUpper (ks : Knobs) : Q :=
  Math_max (_ratio (knob ks RefFirst)) (_ratio (knob ks RefLast)).

(** *** Range: bar, ticks and knob updates

    Reading [this._knobs.first] while [_knobs] is still undefined, or
    calling [forEach] on an undefined [_ticks], is a [TypeError].
    [setActiveKnob] and [updateKnob] divide by [rect.width]: they are
    the source's functions on a track of non-zero width (on a track of
    width zero the source computes [NaN] or an infinity). *)

Definition updateTicks (r : Range) : result Range :=
  if _snaps r then
    match _knobs r with
    | None => Throws r
    | Some ks =>
        let ratio := Range_ratio r ks in
        let active :=
          if _dual r then
            let upperRatio := Range_ratioUpper ks in
            fun t => Qle_bool ratio (tick_ratio t) && Qle_bool (tick_ratio t) upperRatio
          else
            fun t => Qle_bool (tick_ratio t) ratio in
        match _ticks r with
        | None => Throws r
        | Some ts =>
            Returns (with_ticks
              (Some (map (fun t => mkTick (tick_ratio t) (tick_left t) (active t)) ts)) r)
        end
    end
  else Returns r.

Definition updateBar (r : Range) : result Range :=
  match _knobs r with
  | None => Throws r
  | Some ks =>
      let firstRatio := _ratio (knob ks RefFirst) in
      if _dual r then
        let lastRatio := _ratio (knob ks RefLast) in
        updateTicks
          (with_bar (Percent (Math_min firstRatio lastRatio * 100))
                    (Percent (100 - Math_max firstRatio lastRatio * 100)) r)
      else
        updateTicks (with_bar Blank (Percent (100 - firstRatio * 100)) r)
  end.

(** [_active] holds one of the objects of [_knobs]; it is kept as the
    position of that object in the list. *)
Definition setActiveKnob (current : Coordinates) (rect : ClientRect) (r : Range)
  : result Range :=
  let ratio := (x current - left rect) / width rect in
  match _knobs r with
  | None => Throws r
  | Some ks =>
      if _dual r &&
         Qgtb (Math_abs (ratio - _ratio (knob ks RefFirst)))
              (Math_abs (ratio - _ratio (knob ks RefLast)))
      then Returns (with_active (Some RefLast) r)
      else Returns (with_active (Some RefFirst) r)
  end.

Definition updateKnob (current : Coordinates) (rect : ClientRect) (r : Range)
  : result Range :=
  match _active r with
  | None => Returns r
  | Some active =>
      match _knobs r with
      | None => Throws r
      | Some ks =>
          let oldVal := _val (knob ks active) in
          let ks :=
            store ks active
              (set_ratio r ((x current - left rect) / width rect) (knob ks active)) in
          let r := with_knobs (Some ks) r in
          let newVal := _val (knob ks active) in
          if negb (oldVal =? newVal)%Z then
            let r :=
              if _dual r then
                with_value
                  (JObj (JNum (inject_Z (Z.min (_val (knob ks RefFirst))
                                               (_val (knob ks RefLast)))))
                        (JNum (inject_Z (Z.max (_val (knob ks RefFirst))
                                               (_val (knob ks RefLast)))))) r
              else with_value (JNum (inject_Z newVal)) r in
            let r := record_call (OnChange (value r)) r in
            let r := record_call IonChange r in
            updateBar r
          else updateBar r
      end
  end.

Definition writeValue (val : jsval) (r : Range) : result Range :=
  if isPresent val then
    let r := with_value val r in
    match _knobs r with
    | Some knobs =>
        let knobs :=
          if _dual r then
            let knobs :=
              store knobs RefFirst (set_value r (get_lower val) (knob knobs RefFirst)) in
            let knobs :=
              store knobs RefLast (set_value r (get_upper val) (knob knobs RefLast)) in
            store knobs RefLast (position (knob knobs RefLast))
          else
            store knobs RefFirst (set_value r val (knob knobs RefFirst)) in
        let knobs := store knobs RefFirst (position (knob knobs RefFirst)) in
        updateBar (with_knobs (Some knobs) r)
    | None => Returns r
    end
  else Returns r.

(** [clearListeners]: the pressed flags; the listener registry itself
    is wiring that no statement below reads. *)
Definition clearListeners (r : Range) : result Range :=
  match _knobs r with
  | None => Throws r
  | Some ks =>
      let ks := store ks RefLast (press false (knob ks RefLast)) in
      let ks := store ks RefFirst (press false (knob ks RefFirst)) in
      Returns (with_pressed false (with_knobs (Some ks) r))
  end.

Inductive EventType : Type := touchstart | mousedown.

(** A pointer event, with the coordinates [pointerCoord(ev)] reads
    from it. *)
Record UIEvent : Type := mkEvent {
  ev_type : EventType;
  pointerCoord : Coordinates
}.

(** [pointerDown(ev)]; [bounding] is what [getBoundingClientRect()]
    answers for the slider element. *)
Definition pointerDown (ev : UIEvent) (bounding : ClientRect) (r : Range)
  : result Range :=
  let start := pointerCoord ev in
  let r := with_start (Some start) r in
  let rect :=
    if Qltb (x start) (left bounding) then
      mkRect (left bounding) (right bounding) (width bounding)
             (x start - left bounding)
    else if Qgtb (x start) (right bounding) then
      mkRect (left bounding) (right bounding) (width bounding)
             (x start - right bounding)
    else
      mkRect (left bounding) (right bounding) (width bounding) 0 in
  let r := with_rect (Some rect) r in
  setActiveKnob start rect r
  >>> updateKnob start rect
  >>> clearListeners
  >>> (fun r =>
         match _active r, _knobs r with
         | Some active, Some ks =>
             let ks := store ks active (position (knob ks active)) in
             let ks := store ks active (press true (knob ks active)) in
             Returns (with_pressed true (with_knobs (Some ks) r))
         | _, _ => Throws r
         end).

(** *** Range: the rest of a drag *)

(** [pointerMove(ev)].  [_active] is undefined only before the first
    pointer-down, when [_start] is still null, so one [None] stands for
    both. *)
Definition pointerMove (ev : UIEvent) (r : Range) : result Range :=
  match _start r, _active r with
  | Some _, Some _ =>
      match _rect r with
      | None => Throws r
      | Some rect =>
          updateKnob (pointerCoord ev) rect r
          >>> (fun r =>
                 match _active r, _knobs r with
                 | Some active, Some ks =>
                     let ks := store ks active (position (knob ks active)) in
                     let ks := store ks active (press true (knob ks active)) in
                     Returns (with_pressed true (with_knobs (Some ks) r))
                 | _, _ => Throws r
                 end)
      end
  | _, _ => clearListeners r
  end.

(** [pointerUp(ev)]: [updateKnob] reads [rect.left] only behind its
    test of [_active]; [this._active.position()] is not behind any. *)
Definition pointerUp (ev : UIEvent) (r : Range) : result Range :=
  (match _active r, _rect r with
   | None, _ => Returns r
   | Some _, None => Throws r
   | Some _, Some rect => updateKnob (pointerCoord ev) rect r
   end)
  >>> (fun r =>
         match _active r, _knobs r with
         | Some active, Some ks =>
             Returns (with_knobs (Some (store ks active (position (knob ks active)))) r)
         | _, _ => Throws r
         end)
  >>> (fun r => Returns (with_start None (with_active None r)))
  >>> clearListeners.

(** *** Range: ticks *)

(** The loop of [createTicks]: [for (value = min; value <= max;
    value += step)], run for at most [fuel] rounds. *)
Fixpoint ticks_loop (r : Range) (fuel : nat) (value : Z) : list Tick :=
  match fuel with
  | O => []
  | S fuel =>
      if (value <=? _max r)%Z then
        let ratio := valueToRatio r (inject_Z value) in
        mkTick ratio (Percent (ratio * 100)) false
        :: ticks_loop r fuel (value + _step r)
      else []
  end.

(** Rounds that let the loop reach its exit test when [step] is
    positive. *)
Definition ticks_fuel (r : Range) : nat := Z.to_nat (_max r - _min r + 1).

(** The function [createTicks] hands to [raf] when [snaps] is on; a
    fresh tick has no [active] property, which the template reads as
    false. *)
Definition createTicks_frame (r : Range) : result Range :=
  updateTicks (with_ticks (Some (ticks_loop r (ticks_fuel r) (_min r))) r).

(** *** RangeKnob: [ngOnInit] *)

Definition ngOnInit (range : Range) (k : RangeKnob) : RangeKnob :=
  position
    (if isPresent (value range) then
       if _dual range then
         if upper k then set_value range (get_upper (value range)) k
         else set_value range (get_lower (value range)) k
       else set_value range (value range) k
     else set_ratio range (if _dual range && upper k then 1 else 0) k).

(** The tick [createTicks] pushes for the domain value [v]. *)
Definition tick_of (r : Range) (v : Z) : Tick :=
  mkTick (valueToRatio r (inject_Z v))
         (Percent (valueToRatio r (inject_Z v) * 100)) false.

(** The domain values a tick stands for: [min], [min + step], ... up to
    [max]. *)
Definition tick_values (r : Range) : list Z :=
  map (fun k => (_min r + Z.of_nat k * _step r)%Z)
      (seq 0 (Z.to_nat ((_max r - _min r) / _step r + 1))).

(** A value the [value] setter of a knob does not take: neither a
    number nor a string that converts to one. *)
Definition non_numeric (v : jsval) : Prop :=
  match v with
  | JNum _ | JStr (Some _) => False
  | _ => True
  end.

(** The ticks of [createTicks], marked up to the domain value [v]. *)
Definition ticks_up_to (r : Range) (v : Z) : list Tick :=
  map (fun u => mkTick (valueToRatio r (inject_Z u))
                       (Percent (valueToRatio r (inject_Z u) * 100))
                       (u <=? v)%Z)
      (tick_values r).

(** The [snaps] and [dualKnobs] inputs; [isTrueProperty] of
    [util/util] is not among the sources, so each setter is given the
    boolean it stores. *)
Definition set_snaps (v : bool) (r : Range) : Range :=
  mkRange (_dual r) (_pressed r) (_active r) (_start r) (_rect r) (_ticks r)
    (_barL r) (_barR r) (_min r) (_max r) (_step r) v (value r) (_knobs r)
    (calls r).

Definition set_dualKnobs (v : bool) (r : Range) : Range :=
  mkRange v (_pressed r) (_active r) (_start r) (_rect r) (_ticks r)
    (_barL r) (_barR r) (_min r) (_max r) (_step r) (_snaps r) (value r)
    (_knobs r) (calls r).

(** The component as constructed: the field initialisers of the class,
    before the view exists. *)
Definition initial : Range :=
  mkRange false false None None None None Blank Blank 0 100 1 false
    JUndefined None [].

(** Modelled from the spec: the stylesheet of the bar is not among the
    sources.  "Left edge fixed at 0%": a bar whose inline [left] is the
    empty text starts at the left end of the track. *)
Definition left_edge (c : css) : Q :=
  match c with
  | Blank => 0
  | Percent q => q
  end.

(** *** The value mapping in the words of the specification *)

Section SpecMapping.
Variables min max step : Z.

(** "snapped to the nearest multiple of [step] via
    [round(x / step) * step]". *)
Definition spec_snap (x : Q) : Z :=
  (Math_round (x / inject_Z step) * step)%Z.

(** "[round(((max - min) * ratio) + min)], then snapped". *)
Definition spec_ratioToValue (ratio : Q) : Z :=
  spec_snap
    (inject_Z (Math_round ((inject_Z max - inject_Z min) * ratio + inject_Z min))).

(** "clamp [value] to [min, max], snap to nearest step multiple, then
    [(value - min) / (max - min)]". *)
Definition spec_valueToRatio (value : Q) : Q :=
  let v' := spec_snap (clamp (inject_Z min) value (inject_Z max)) in
  (inject_Z v' - inject_Z min) / (inject_Z max - inject_Z min).

End SpecMapping.

(** *** Observations used in the statements *)

(** Two style texts that denote the same extent. *)
Definition same_extent (c c' : css) : Prop :=
  match c, c' with
  | Blank, Blank => True
  | Percent q, Percent q' => q == q'
  | _, _ => False
  end.

(** A knob that is where it was: ratio, value and position text. *)
Definition untouched (k k' : RangeKnob) : Prop :=
  _ratio k' = _ratio k /\ _val k' = _val k /\ _x k' = _x k.

(** A knob that sits where [set ratio(ratio)] puts it. *)
Definition moved_to (range : Range) (ratio : Q) (k k' : RangeKnob) : Prop :=
  _ratio k' = _ratio (set_ratio range ratio k)
  /\ _val k' = _val (set_ratio range ratio k).

(** The knobs after a pointer-down that picked [active] out of the two
    knobs [a] and [b]: the picked one sits where the pointer put it, the
    other one is where it was. *)
Definition picked (range : Range) (ratio : Q) (a b : RangeKnob) (active : KnobRef)
  (r : Range) : Prop :=
  _active r = Some active
  /\ exists a' b',
       _knobs r = Some (TwoKnobs a' b')
       /\ match active with
          | RefFirst => moved_to range ratio a a' /\ untouched b b'
          | RefLast => untouched a a' /\ moved_to range ratio b b'
          end.

End Slider.

Module Pull.

(** *** RefresherState: a bit per state, and the busy mask *)

Inductive RefresherState : Type :=
| Inactive
| Pulling
| Ready
| Refreshing
| Cancelling
| Completing.

Definition bits (s : RefresherState) : Z :=
  match s with
  | Inactive => Z.shiftl 1 0
  | Pulling => Z.shiftl 1 1
  | Ready => Z.shiftl 1 2
  | Refreshing => Z.shiftl 1 3
  | Cancelling => Z.shiftl 1 4
  | Completing => Z.shiftl 1 5
  end.

Definition _BUSY_ : Z :=
  Z.lor (Z.lor (bits Refreshing) (bits Cancelling)) (bits Completing).

Definition state_eqb (a b : RefresherState) : bool := (bits a =? bits b)%Z.

(** *** What the component does to its surroundings *)

(** The four style properties written by [setCss]; [transform] is
    [Some y] for ['translateY(' + y + 'px) translateZ(0px)'] and [None]
    for ['translateZ(0px)']. *)
Record Style : Type := mkStyle {
  transform : option Q;
  transitionDuration : string;
  transitionDelay : string;
  overflow : string
}.

Inductive Emitter : Type := ionRefresh | ionPull | ionStart.

(** Observable actions, oldest first.  [Assign s] is an assignment to
    the [@State()] field [state]. *)
Inductive Effect : Type :=
| Assign (s : RefresherState)
| PreventDefault
| DomWrite (st : Style)
| Emit (e : Emitter).

(** *** Refresher: the fields, and the surroundings it reads

    [scrollTop] is [this.scrollEl.scrollTop].  [timers] are the pending
    [setTimeout] handles; the callback of each is the inner [close] of
    the call that armed it, which closes over that handle.
    [transitionEnd] are the handles whose inner [close] is registered
    for the scroll element's transition-end notification. *)
Record Refresher : Type := mkRefresher {
  appliedStyles : bool;
  didStart : bool;
  state : RefresherState;
  progress : Q;
  pullMin : Q;
  pullDelta : Q;
  snapbackDuration : string;
  scrollTop : Q;
  effects : list Effect;
  timers : list nat;
  next_timer : nat;
  transitionEnd : list nat
}.

Definition with_appliedStyles (v : bool) (w : Refresher) : Refresher :=
  mkRefresher v (didStart w) (state w) (progress w) (pullMin w) (pullDelta w)
    (snapbackDuration w) (scrollTop w) (effects w) (timers w) (next_timer w)
    (transitionEnd w).

Definition with_didStart (v : bool) (w : Refresher) : Refresher :=
  mkRefresher (appliedStyles w) v (state w) (progress w) (pullMin w)
    (pullDelta w) (snapbackDuration w) (scrollTop w) (effects w) (timers w)
    (next_timer w) (transitionEnd w).

Definition with_progress (v : Q) (w : Refresher) : Refresher :=
  mkRefresher (appliedStyles w) (didStart w) (state w) v (pullMin w)
    (pullDelta w) (snapbackDuration w) (scrollTop w) (effects w) (timers w)
    (next_timer w) (transitionEnd w).

Definition with_timers (v : list nat) (w : Refresher) : Refresher :=
  mkRefresher (appliedStyles w) (didStart w) (state w) (progress w) (pullMin w)
    (pullDelta w) (snapbackDuration w) (scrollTop w) (effects w) v
    (next_timer w) (transitionEnd w).

Definition effect (e : Effect) (w : Refresher) : Refresher :=
  mkRefresher (appliedStyles w) (didStart w) (state w) (progress w) (pullMin w)
    (pullDelta w) (snapbackDuration w) (scrollTop w) (effects w ++ [e])
    (timers w) (next_timer w) (transitionEnd w).

(** [this.state = s]. *)
Definition with_state (s : RefresherState) (w : Refresher) : Refresher :=
  effect (Assign s)
    (mkRefresher (appliedStyles w) (didStart w) s (progress w) (pullMin w)
       (pullDelta w) (snapbackDuration w) (scrollTop w) (effects w) (timers w)
       (next_timer w) (transitionEnd w)).

(** [setTimeout(callback, 600)]: a fresh handle, now pending. *)
Definition setTimeout (w : Refresher) : nat * Refresher :=
  (next_timer w,
   mkRefresher (appliedStyles w) (didStart w) (state w) (progress w)
     (pullMin w) (pullDelta w) (snapbackDuration w) (scrollTop w) (effects w)
     (timers w ++ [next_timer w]) (S (next_timer w)) (transitionEnd w)).

Definition clearTimeout (timer : nat) (w : Refresher) : Refresher :=
  with_timers (filter (fun t => negb (t =? timer)%nat) (timers w)) w.

(** *** Refresher: the methods *)

Definition setCss (y : Q) (duration : string) (overflowVisible : bool)
  (delay : string) (w : Refresher) : Refresher :=
  let w := with_appliedStyles (Qgtb y 0) w in
  effect
    (DomWrite
       (mkStyle (if Qgtb y 0 then Some y else None) duration delay
          (if overflowVisible then "hidden"%string else EmptyString))) w.

(** A move or start sample: [ev.touches.length] when [ev.touches] is
    there, and [detail.deltaY]. *)
Record Detail : Type := mkDetail {
  touches : option nat;
  deltaY : Q
}.

Definition multitouch (detail : Detail) : bool :=
  match touches detail with
  | Some n => (1 <? n)%nat
  | None => false
  end.

Definition busy (w : Refresher) : bool :=
  negb (Z.land (bits (state w)) _BUSY_ =? 0)%Z.

Definition canStart (detail : Detail) (w : Refresher) : bool :=
  if multitouch detail then false
  else if negb (state_eqb (state w) Inactive) then false
  else if Qgtb (scrollTop w) 0 then false
  else true.

Definition onStart (w : Refresher) : Refresher :=
  with_state Inactive (with_progress 0 w).

Definition beginRefresh (w : Refresher) : Refresher :=
  let w := with_state Refreshing w in
  let w := setCss (pullMin w) (snapbackDuration w) true EmptyString w in
  effect (Emit ionRefresh) w.

(** [onMove(detail)], with the number it returns, for a sample whose
    [deltaY] is a finite number; [onMove_any] below takes the samples
    whose [deltaY] is [NaN] or [undefined] as well. *)
Definition onMove (detail : Detail) (w : Refresher) : Z * Refresher :=
  if multitouch detail then (1%Z, w)
  else if busy w then (2%Z, w)
  else
    let deltaY := deltaY detail in
    if Qle_bool deltaY 0 then
      let w := with_progress 0 w in
      let w := with_state Inactive w in
      if appliedStyles w then (5%Z, setCss 0 EmptyString false EmptyString w)
      else (6%Z, w)
    else
      let pulling := fun w : Refresher =>
        let w := effect PreventDefault w in
        let w := setCss deltaY "0ms" true EmptyString w in
        if Qeq_bool deltaY 0 then (8%Z, with_progress 0 w)
        else
          let pullMin := pullMin w in
          let w := with_progress (deltaY / pullMin) w in
          let w :=
            if negb (didStart w) then effect (Emit ionStart) (with_didStart true w)
            else w in
          let w := effect (Emit ionPull) w in
          if Qltb deltaY pullMin then (2%Z, with_state Pulling w)
          else if Qgtb deltaY (pullMin + pullDelta w) then (3%Z, beginRefresh w)
          else (4%Z, with_state Ready w) in
      if state_eqb (state w) Inactive then
        if Qgtb (scrollTop w) 0 then (7%Z, with_progress 0 w)
        else pulling (with_state Pulling w)
      else pulling w.

(** *** A move sample whose [deltaY] need not be a number

    [onMove] takes [detail: any].  [deltaY] is a finite number, [NaN],
    or [undefined] when the sample carries none; the comparisons and the
    negation below are JavaScript's on such a value. *)
Inductive Delta : Type :=
| Finite (q : Q)
| NotANumber
| Missing.





(** [!deltaY]: true of [0], [NaN] and [undefined]. *)
Definition falsy (d : Delta) : bool :=
  match d with
  | Finite q => Qeq_bool q 0
  | NotANumber | Missing => true
  end.




(** The inner function [close(ev)] of the method [close]; [timer] is
    the variable it closes over. *)
Definition close_callback (ev : bool) (timer : nat) (w : Refresher) : Refresher :=
  let w := if ev then clearTimeout timer w else w in
  let w := with_state Inactive w in
  let w := with_progress 0 w in
  let w := with_didStart false w in
  setCss 0 "0ms" false EmptyString w.

(** The method [close(state, delay)].  The registration of the inner
    function for the transition end is commented out in the source, so
    only the timer is armed. *)
Definition close (s : RefresherState) (delay : string) (w : Refresher) : Refresher :=
  let (timer, w) := setTimeout w in
  let w := with_state s w in
  setCss 0 EmptyString true delay w.

Definition complete (w : Refresher) : Refresher := close Completing "120ms" w.

Definition cancel (w : Refresher) : Refresher := close Cancelling EmptyString w.

Definition onEnd (w : Refresher) : Refresher :=
  if state_eqb (state w) Ready then beginRefresh w
  else if state_eqb (state w) Pulling then cancel w
  else w.

(** *** The two notifications of the close sequence *)

(** The timeout with handle [timer] expires: if it is still pending, its
    callback runs without an argument. *)
Definition timeout_fires (timer : nat) (w : Refresher) : Refresher :=
  if existsb (Nat.eqb timer) (timers w) then
    close_callback false timer (clearTimeout timer w)
  else w.

(** The scroll element reports that its transition has ended: every
    registered inner [close] runs with the event as argument. *)
Definition transition_ended (w : Refresher) : Refresher :=
  fold_left (fun w timer => close_callback true timer w) (transitionEnd w) w.

(** The component as constructed, with the host's [pullMin] and
    [pullDelta]; the other fields are the initialisers of the class. *)
Definition configured (pullMin pullDelta scroll : Q) : Refresher :=
  mkRefresher false false Inactive 0 pullMin pullDelta "280ms" scroll [] [] 0 [].

(** The same with the default thresholds. *)
Definition initial (scroll : Q) : Refresher := configured 60 60 scroll.

(** *** Runs of the component

    What can happen to a refresher, one thing at a time: the gesture
    component calls [onStart], [onMove] and [onEnd], the host calls
    [complete] and [cancel], a pending timeout expires, and the scroll
    element finishes a transition. *)
Inductive Step : Type :=
| CallOnStart
| CallOnMove (detail : Detail)
| CallOnEnd
| CallComplete
| CallCancel
| TimeoutFires (timer : nat)
| TransitionEnds.

Definition step (s : Step) (w : Refresher) : Refresher :=
  match s with
  | CallOnStart => onStart w
  | CallOnMove detail => snd (onMove detail w)
  | CallOnEnd => onEnd w
  | CallComplete => complete w
  | CallCancel => cancel w
  | TimeoutFires timer => timeout_fires timer w
  | TransitionEnds => transition_ended w
  end.

Definition run (l : list Step) (w : Refresher) : Refresher :=
  fold_left (fun w s => step s w) l w.

(** *** Gesture streams *)

(** What the gesture component delivers during a drag. *)
Inductive Gesture : Type :=
| Move (detail : Detail)
| Release.

Definition gesture (g : Gesture) (w : Refresher) : Refresher :=
  match g with
  | Move detail => snd (onMove detail w)
  | Release => onEnd w
  end.

Definition gestures (l : list Gesture) (w : Refresher) : Refresher :=
  fold_left (fun w g => gesture g w) l w.

(** How many times [ionStart] and [ionPull] were emitted. *)
Definition starts (l : list Effect) : nat :=
  List.length
    (filter (fun e => match e with Emit ionStart => true | _ => false end) l).

Definition pulls (l : list Effect) : nat :=
  List.length
    (filter (fun e => match e with Emit ionPull => true | _ => false end) l).

(** Whether the last queued style write, if any, carries an offset. *)
Definition last_write_offset (l : list Effect) : bool :=
  fold_left
    (fun acc e =>
       match e with
       | DomWrite st => match transform st with Some _ => true | None => false end
       | _ => acc
       end) l false.

(** [appliedStyles] agrees with the last queued style write. *)
Definition flag_matches (w : Refresher) : Prop :=
  appliedStyles w = last_write_offset (effects w).

(** *** Observations used in the statements *)

(** How many times [ionRefresh] was emitted. *)
Definition refreshes (l : list Effect) : nat :=
  List.length
    (filter (fun e => match e with Emit ionRefresh => true | _ => false end) l).

(** The states assigned to [state], in order. *)
Definition assigned (l : list Effect) : list RefresherState :=
  flat_map (fun e => match e with Assign s => [s] | _ => [] end) l.

(** The fully neutral style: no offset, zero duration, no delay,
    overflow not hidden. *)
Definition neutral : Style := mkStyle None "0ms" EmptyString EmptyString.

(** The terminal reset of the close sequence. *)
Definition is_reset (w : Refresher) : Prop :=
  state w = Inactive /\ progress w = 0 /\ didStart w = false.

(** The expirations [l] of timeouts, in the order given. *)
Definition timeouts_fire (l : list nat) (w : Refresher) : Refresher :=
  fold_left (fun w timer => timeout_fires timer w) l w.

End Pull.

Module Fixtures.
Import Slider.

(** The domain of the usage notes of the component: 21 to 72 by 3. *)
Definition documented_domain : Range :=
  set_step (JNum 3) (set_max (JNum 72) (set_min (JNum 21) initial)).

(** A domain whose step divides neither the span nor the maximum: 0 to
    10 by 4; and the same with [snaps] on. *)
Definition coarse_domain : Range :=
  set_step (JNum 4) (set_max (JNum 10) initial).

Definition coarse_snapping_domain : Range := set_snaps true coarse_domain.

(** A knob put at [ratio] the way [ngOnInit] puts a knob at its default
    place: through the [ratio] setter, then [position()]. *)
Definition knob_at (range : Range) (ratio : Q) (upper : bool) : RangeKnob :=
  position (set_ratio range ratio (mkKnob 0 0 Blank false upper)).

(** A slider on the default domain (0 to 100 by 1) whose view exists,
    with one knob or with two. *)
Definition single_slider (ratio : Q) : Range :=
  with_knobs (Some (OneKnob (knob_at initial ratio false))) initial.

Definition dual_slider (lower upper : Q) : Range :=
  with_knobs
    (Some (TwoKnobs (knob_at initial lower false) (knob_at initial upper true)))
    (set_dualKnobs true initial).

(** The snapping domain of the usage notes, 1000 to 2000 by 100, and a
    one-knob slider on it whose view exists. *)
Definition snapping_domain : Range :=
  set_snaps true
    (set_step (JNum 100) (set_max (JNum 2000) (set_min (JNum 1000) initial))).

Definition snapping_slider (ratio : Q) : Range :=
  with_knobs (Some (OneKnob (knob_at snapping_domain ratio false))) snapping_domain.

(** A track 200 wide that starts at 0, a mouse event at [x], and the
    two-knob slider (knobs at 0.1 and 0.9) after a pointer-down at 60. *)
Definition track : ClientRect := mkRect 0 200 200 0.

Definition mouse_at (x : Q) : UIEvent := mkEvent mousedown (mkCoord x 0).

Definition pressed_slider : Range :=
  state_of (pointerDown (mouse_at 60) track (dual_slider (1 # 10) (9 # 10))).

(** A refresher, scrolled to the top, that a first move sample of 130
    has sent past [pullMin + pullDelta]. *)
Definition overshot : Pull.Refresher :=
  snd (Pull.onMove (Pull.mkDetail (Some 1%nat) 130) (Pull.onStart (Pull.initial 0))).

End Fixtures.

(** * Properties *)

(** ** Rounding *)

Lemma Math_round_bounds (x : Q) :
  x - (1 # 2) < inject_Z (Math_round x) /\ inject_Z (Math_round x) <= x + (1 # 2).
Proof.
  unfold Math_round. split.
  - pose proof (Qlt_floor (x + (1 # 2))) as H.
    rewrite inject_Z_plus in H. change (inject_Z 1) with 1 in H. lra.
  - apply Qfloor_le.
Qed.

Lemma Math_round_comp (x x' : Q) : x == x' -> Math_round x = Math_round x'.
Proof. intros E. unfold Math_round. apply Qfloor_comp. rewrite E. reflexivity. Qed.

Lemma Math_round_Z (z : Z) : Math_round (inject_Z z) = z.
Proof.
  pose proof (Math_round_bounds (inject_Z z)) as [Hlo Hhi].
  assert (inject_Z z - 1 < inject_Z (Math_round (inject_Z z))) as H1 by lra.
  assert (inject_Z (Math_round (inject_Z z)) < inject_Z z + 1) as H2 by lra.
  change 1 with (inject_Z 1) in H1, H2.
  unfold Qminus in H1. change (- inject_Z 1) with (inject_Z (-1)) in H1.
  rewrite <- inject_Z_plus in H1, H2.
  rewrite <- Zlt_Qlt in H1, H2. lia.
Qed.

(** No integer is closer to [x] than [Math.round(x)]. *)
Lemma Math_round_nearest (x : Q) (n : Z) :
  Qabs (inject_Z (Math_round x) - x) <= Qabs (inject_Z n - x).
Proof.
  pose proof (Math_round_bounds x) as [Hlo Hhi].
  destruct (Z.lt_trichotomy n (Math_round x)) as [Hn | [Hn | Hn]].
  - assert (n + 1 <= Math_round x)%Z as Hn' by lia.
    rewrite Zle_Qle, inject_Z_plus in Hn'. change (inject_Z 1) with 1 in Hn'.
    apply Qabs_case; intros; apply Qabs_case; intros; lra.
  - subst n. apply Qle_refl.
  - assert (Math_round x + 1 <= n)%Z as Hn' by lia.
    rewrite Zle_Qle, inject_Z_plus in Hn'. change (inject_Z 1) with 1 in Hn'.
    apply Qabs_case; intros; apply Qabs_case; intros; lra.
Qed.

Lemma inject_Z_nonzero (s : Z) : (0 < s)%Z -> ~ inject_Z s == 0.
Proof. intros Hs E. unfold Qeq in E. simpl in E. lia. Qed.

Lemma Math_round_div (n s : Z) :
  (0 < s)%Z -> Math_round (inject_Z n / inject_Z s) = ((2 * n + s) / (2 * s))%Z.
Proof.
  intros Hs. rewrite Zdiv_Qdiv. unfold Math_round. apply Qfloor_comp.
  rewrite !inject_Z_plus, !inject_Z_mult.
  change (inject_Z 2) with 2. field. apply inject_Z_nonzero, Hs.
Qed.

(** [round(n / s) * s] is a multiple of [s] nearest to the integer [n]. *)
Lemma snap_nearest (n s k : Z) :
  (0 < s)%Z ->
  (Z.abs (Math_round (inject_Z n / inject_Z s) * s - n) <= Z.abs (k * s - n))%Z.
Proof.
  intros Hs. rewrite Math_round_div by exact Hs.
  pose proof (Z.div_mod (2 * n + s) (2 * s) ltac:(lia)) as Hdm.
  pose proof (Z.mod_pos_bound (2 * n + s) (2 * s) ltac:(lia)) as Hb.
  set (q := ((2 * n + s) / (2 * s))%Z) in *.
  set (m := ((2 * n + s) mod (2 * s))%Z) in *.
  destruct (Z.lt_trichotomy k q) as [Hk | [Hk | Hk]]; [ | subst k; lia | ]; nia.
Qed.

(** The same for a rational [x]. *)
Lemma snap_nearest_Q (x : Q) (s k : Z) :
  (0 < s)%Z ->
  Qabs (inject_Z (Math_round (x / inject_Z s) * s) - x)
  <= Qabs (inject_Z (k * s) - x).
Proof.
  intros Hs.
  pose proof (inject_Z_nonzero s Hs) as Hnz.
  assert (0 < inject_Z s) as Hpos by (change 0 with (inject_Z 0); rewrite <- Zlt_Qlt; exact Hs).
  assert (forall j : Z,
            Qabs (inject_Z (j * s) - x)
            == inject_Z s * Qabs (inject_Z j - x / inject_Z s)) as Hscale.
  { intros j.
    transitivity (Qabs (inject_Z s * (inject_Z j - x / inject_Z s))).
    - apply Qabs_wd. rewrite inject_Z_mult. field. exact Hnz.
    - rewrite Qabs_Qmult, (Qabs_pos (inject_Z s)) by lra. reflexivity. }
  rewrite !Hscale. apply Qmult_le_l; [exact Hpos | apply Math_round_nearest].
Qed.

Lemma snap_multiple (k s : Z) :
  (0 < s)%Z -> Math_round (inject_Z (k * s) / inject_Z s) = k.
Proof.
  intros Hs. rewrite Math_round_div by exact Hs.
  replace (2 * (k * s) + s)%Z with (s + k * (2 * s))%Z by lia.
  rewrite Z.div_add by lia. rewrite Z.div_small; lia.
Qed.

(** ** Comparisons *)

Lemma Qltb_true (a b : Q) : Qltb a b = true <-> a < b.
Proof.
  unfold Qltb. rewrite negb_true_iff, <- not_true_iff_false, Qle_bool_iff.
  split; [apply Qnot_le_lt | apply Qlt_not_le].
Qed.

Lemma Qltb_false (a b : Q) : Qltb a b = false <-> b <= a.
Proof. unfold Qltb. rewrite negb_false_iff, Qle_bool_iff. reflexivity. Qed.

Lemma Qgtb_true (a b : Q) : Qgtb a b = true <-> b < a.
Proof.
  unfold Qgtb, Qltb. rewrite negb_true_iff, <- not_true_iff_false, Qle_bool_iff.
  split; [apply Qnot_le_lt | apply Qlt_not_le].
Qed.

Lemma Qgtb_false (a b : Q) : Qgtb a b = false <-> a <= b.
Proof.
  unfold Qgtb, Qltb. rewrite negb_false_iff, Qle_bool_iff. reflexivity.
Qed.

Lemma Qle_bool_false (a b : Q) : Qle_bool a b = false <-> b < a.
Proof.
  rewrite <- not_true_iff_false, Qle_bool_iff.
  split; [apply Qnot_le_lt | apply Qlt_not_le].
Qed.

Module SliderFacts.
Import Slider.
Import Fixtures.

(** ** Value mapping *)

Lemma inject_Z_minus (a b : Z) : inject_Z (a - b) == inject_Z a - inject_Z b.
Proof.
  unfold Z.sub, Qminus. rewrite inject_Z_plus, inject_Z_opp. reflexivity.
Qed.

(** C1. For every domain whose step is a positive integer, the code's
    [ratioToValue] is the specification's two-stage rounding (first
    [round(((max - min) * ratio) + min)], an integer nearest to that
    number, then [round(x / step) * step], a multiple of [step] nearest to
    the first-stage integer), and the code's [valueToRatio] is
    [(v' - min) / (max - min)] with [v'] the value clamped to [min, max]
    and then rounded to a multiple of [step] nearest to it. *)
Theorem ratio_value_mapping_two_stage (r : Range) (ratio value : Q) :
  (0 < _step r)%Z ->
  let affine := (inject_Z (_max r) - inject_Z (_min r)) * ratio + inject_Z (_min r) in
  let stage1 := Math_round affine in
  let clamped := clamp (inject_Z (_min r)) value (inject_Z (_max r)) in
  let v' := spec_snap (_step r) clamped in
  ratioToValue r ratio = spec_ratioToValue (_min r) (_max r) (_step r) ratio
  /\ ratioToValue r ratio = (Math_round (inject_Z stage1 / inject_Z (_step r)) * _step r)%Z
  /\ (forall n : Z, Qabs (inject_Z stage1 - affine) <= Qabs (inject_Z n - affine))
  /\ (forall k : Z,
        (Z.abs (ratioToValue r ratio - stage1) <= Z.abs (k * _step r - stage1))%Z)
  /\ valueToRatio r value == spec_valueToRatio (_min r) (_max r) (_step r) value
  /\ valueToRatio r value
     == (inject_Z v' - inject_Z (_min r)) / (inject_Z (_max r) - inject_Z (_min r))
  /\ (forall k : Z,
        Qabs (inject_Z v' - clamped) <= Qabs (inject_Z (k * _step r) - clamped)).
Proof.
  intros Hstep affine stage1 clamped v'.
  assert (ratioToValue r ratio
          = (Math_round (inject_Z stage1 / inject_Z (_step r)) * _step r)%Z) as Hcode.
  { unfold ratioToValue, stage1, affine.
    rewrite (Math_round_comp
               (inject_Z (_max r - _min r) * ratio + inject_Z (_min r))
               ((inject_Z (_max r) - inject_Z (_min r)) * ratio + inject_Z (_min r)))
      by (rewrite inject_Z_minus; reflexivity).
    reflexivity. }
  assert (valueToRatio r value
          == (inject_Z v' - inject_Z (_min r))
             / (inject_Z (_max r) - inject_Z (_min r))) as Hratio.
  { unfold valueToRatio, v', clamped, spec_snap.
    rewrite !inject_Z_minus. reflexivity. }
  repeat split.
  - rewrite Hcode. reflexivity.
  - exact Hcode.
  - intros n. apply Math_round_nearest.
  - intros k. rewrite Hcode. apply snap_nearest, Hstep.
  - rewrite Hratio. reflexivity.
  - exact Hratio.
  - intros k. apply snap_nearest_Q, Hstep.
Qed.

Lemma ratio_value_mapping_two_stage_witness :
  (0 < _step documented_domain)%Z
  /\ ratioToValue documented_domain (1 # 2) = spec_ratioToValue 21 72 3 (1 # 2)
  /\ valueToRatio documented_domain 50 == spec_valueToRatio 21 72 3 50.
Proof.
  destruct (ratio_value_mapping_two_stage documented_domain (1 # 2) 50 eq_refl)
    as (Hvalue & _ & _ & _ & Hratio & _).
  split; [reflexivity | split; [exact Hvalue | exact Hratio]].
Defined.

Lemma Math_round_mono (x x' : Q) : x <= x' -> (Math_round x <= Math_round x')%Z.
Proof. intros H. unfold Math_round. apply Qfloor_resp_le. lra. Qed.

Lemma clamp_bounds (lo n hi : Q) : lo <= hi -> lo <= clamp lo n hi /\ clamp lo n hi <= hi.
Proof.
  intros H. unfold clamp, Math_max, Math_min. split.
  - apply Q.le_max_l.
  - apply Q.max_lub; [exact H | apply Q.le_min_r].
Qed.

Lemma clamp_inside (lo n hi : Q) : lo <= n -> n <= hi -> clamp lo n hi == n.
Proof.
  intros H1 H2. unfold clamp, Math_max, Math_min.
  rewrite (Q.min_l n hi) by exact H2. apply Q.max_r, H1.
Qed.

(** C3, amended. On every valid domain in which [step] divides both
    [min] and [max], [ratioToValue(0) = min] and [ratioToValue(1) = max]. *)
Theorem ratioToValue_ends_aligned (r : Range) :
  (_min r < _max r)%Z -> (0 < _step r)%Z ->
  (_step r | _min r)%Z -> (_step r | _max r)%Z ->
  ratioToValue r 0 = _min r /\ ratioToValue r 1 = _max r.
Proof.
  intros _ Hs [a Ha] [b Hb]. unfold ratioToValue. split.
  - rewrite (Math_round_comp (inject_Z (_max r - _min r) * 0 + inject_Z (_min r))
               (inject_Z (_min r))) by ring.
    rewrite Math_round_Z, Ha, snap_multiple by exact Hs. reflexivity.
  - rewrite (Math_round_comp (inject_Z (_max r - _min r) * 1 + inject_Z (_min r))
               (inject_Z (_max r)))
      by (rewrite inject_Z_minus; ring).
    rewrite Math_round_Z, Hb, snap_multiple by exact Hs. reflexivity.
Qed.

Lemma ratioToValue_ends_aligned_witness :
  (_min documented_domain < _max documented_domain)%Z
  /\ (0 < _step documented_domain)%Z
  /\ (_step documented_domain | _min documented_domain)%Z
  /\ (_step documented_domain | _max documented_domain)%Z
  /\ ratioToValue documented_domain 0 = 21%Z
  /\ ratioToValue documented_domain 1 = 72%Z.
Proof.
  assert ((_step documented_domain | _min documented_domain)%Z) as Hmin
    by (exists 7%Z; reflexivity).
  assert ((_step documented_domain | _max documented_domain)%Z) as Hmax
    by (exists 24%Z; reflexivity).
  destruct (ratioToValue_ends_aligned documented_domain eq_refl eq_refl Hmin Hmax)
    as [H0 H1].
  split; [reflexivity | split; [reflexivity | split; [exact Hmin | split; [exact Hmax | split]]]].
  - exact H0.
  - exact H1.
Defined.

(** The converse: the two ends map to the two bounds only if [step]
    divides both. *)
Lemma ratioToValue_ends_only_aligned (r : Range) :
  ratioToValue r 0 = _min r -> ratioToValue r 1 = _max r ->
  (_step r | _min r)%Z /\ (_step r | _max r)%Z.
Proof.
  unfold ratioToValue. intros H0 H1. split.
  - eexists. symmetry. exact H0.
  - eexists. symmetry. exact H1.
Qed.

(** On such a domain every value lies within the bounds, on the grid. *)
Lemma ratioToValue_range_aligned (r : Range) (ratio : Q) :
  (0 < _step r)%Z -> (_min r <= _max r)%Z ->
  (_step r | _min r)%Z -> (_step r | _max r)%Z ->
  0 <= ratio <= 1 ->
  (_min r <= ratioToValue r ratio <= _max r)%Z /\ (_step r | ratioToValue r ratio)%Z.
Proof.
  intros Hs Hmm [a Ha] [b Hb] [H0 H1]. unfold ratioToValue.
  set (stage1 := Math_round (inject_Z (_max r - _min r) * ratio + inject_Z (_min r))).
  assert (0 <= inject_Z (_max r - _min r)) as Hd.
  { change 0 with (inject_Z 0). rewrite <- Zle_Qle. lia. }
  assert (_min r <= stage1 <= _max r)%Z as [Hlo Hhi].
  { assert (inject_Z (_max r - _min r) * ratio <= inject_Z (_max r - _min r) * 1) as Hm
      by (apply Qmult_le_compat_nonneg; split; lra).
    pose proof (Qmult_le_0_compat _ _ Hd H0) as Hp.
    split.
    - rewrite <- (Math_round_Z (_min r)). apply Math_round_mono. lra.
    - rewrite <- (Math_round_Z (_max r)). apply Math_round_mono.
      rewrite inject_Z_minus in *. lra. }
  rewrite Math_round_div by exact Hs.
  pose proof (Z.div_mod (2 * stage1 + _step r) (2 * _step r) ltac:(lia)) as Hdm.
  pose proof (Z.mod_pos_bound (2 * stage1 + _step r) (2 * _step r) ltac:(lia)) as Hbd.
  set (q := ((2 * stage1 + _step r) / (2 * _step r))%Z) in *.
  split; [ | exists q; reflexivity].
  clearbody stage1 q.
  assert (a <= q)%Z by (apply Z.nlt_ge; intros Hc; nia).
  assert (q <= b)%Z by (apply Z.nlt_ge; intros Hc; nia).
  split; nia.
Qed.

Lemma valueToRatio_on_grid (r : Range) (v : Z) :
  (0 < _step r)%Z -> (_min r < _max r)%Z ->
  (_min r <= v <= _max r)%Z -> (_step r | v)%Z ->
  valueToRatio r (inject_Z v) == inject_Z (v - _min r) / inject_Z (_max r - _min r)
  /\ 0 <= valueToRatio r (inject_Z v) <= 1.
Proof.
  intros Hs Hmm [Hlo Hhi] [k Hk].
  assert (valueToRatio r (inject_Z v)
          == inject_Z (v - _min r) / inject_Z (_max r - _min r)) as E.
  { unfold valueToRatio.
    rewrite (Math_round_comp
               (clamp (inject_Z (_min r)) (inject_Z v) (inject_Z (_max r))
                / inject_Z (_step r))
               (inject_Z (k * _step r) / inject_Z (_step r))).
    - rewrite snap_multiple by exact Hs. rewrite <- Hk. reflexivity.
    - rewrite clamp_inside by (rewrite <- Zle_Qle; lia). rewrite Hk. reflexivity. }
  split; [exact E | ].
  assert (0 < inject_Z (_max r - _min r)) as Hd
    by (change 0 with (inject_Z 0); rewrite <- Zlt_Qlt; lia).
  rewrite E. split.
  - apply Qle_shift_div_l; [exact Hd | ].
    rewrite Qmult_0_l. change 0 with (inject_Z 0). rewrite <- Zle_Qle. lia.
  - apply Qle_shift_div_r; [exact Hd | ].
    rewrite Qmult_1_l. rewrite <- Zle_Qle. lia.
Qed.

(** ** The knob's ratio setter *)

Lemma set_ratio_unit_interval_without_snaps (r : Range) (ratio : Q) (k : RangeKnob) :
  _snaps r = false -> 0 <= _ratio (set_ratio r ratio k) <= 1.
Proof.
  intros Hsn. unfold set_ratio. cbn [_ratio]. rewrite Hsn.
  apply clamp_bounds. lra.
Qed.

Lemma set_ratio_unit_interval_aligned (r : Range) (ratio : Q) (k : RangeKnob) :
  (0 < _step r)%Z -> (_min r < _max r)%Z ->
  (_step r | _min r)%Z -> (_step r | _max r)%Z ->
  0 <= _ratio (set_ratio r ratio k) <= 1.
Proof.
  intros Hs Hmm Hmin Hmax. unfold set_ratio. cbn [_ratio].
  pose proof (clamp_bounds 0 ratio 1 ltac:(lra)) as Hc.
  destruct (_snaps r); [ | exact Hc].
  pose proof (ratioToValue_range_aligned r (clamp 0 ratio 1) Hs ltac:(lia) Hmin Hmax Hc)
    as [Hrange Hgrid].
  apply (valueToRatio_on_grid r _ Hs Hmm Hrange Hgrid).
Qed.

(** C3 as stated fails: on the valid domain [min = 0], [max = 10],
    [step = 4] the ratio 1 maps to 12, not to the maximum (the second
    rounding snaps to multiples of [step] counted from zero and nothing
    clamps the result). *)
Lemma ratioToValue_one_misses_max :
  (_min coarse_domain < _max coarse_domain)%Z
  /\ (0 < _step coarse_domain)%Z
  /\ _max coarse_domain = 10%Z
  /\ ratioToValue coarse_domain 1 = 12%Z
  /\ ratioToValue coarse_domain 1 <> _max coarse_domain.
Proof.
  split; [reflexivity | split; [reflexivity | split; [reflexivity | split]]].
  - reflexivity.
  - discriminate.
Qed.

(** C2. The stored ratio lies in [0, 1] after every assignment: the code
    with [snaps] on, [min = 0], [max = 10], [step = 4], assigned the
    ratio 1, stores 6/5 (the value 12 is clamped to 10 and then snapped
    back to 12 inside [valueToRatio]). *)
Theorem snapped_ratio_leaves_unit_interval (k : RangeKnob) :
  _snaps coarse_snapping_domain = true
  /\ _val (set_ratio coarse_snapping_domain 1 k) = 12%Z
  /\ _ratio (set_ratio coarse_snapping_domain 1 k) == 6 # 5
  /\ ~ _ratio (set_ratio coarse_snapping_domain 1 k) <= 1.
Proof.
  unfold set_ratio. cbn [_ratio _val].
  split; [reflexivity | split; [reflexivity | split]].
  - vm_compute. reflexivity.
  - vm_compute. intros H. apply H. reflexivity.
Qed.

(** The same below zero: from 1 to 10 by 4, the ratio 0 is stored as
    -1/9. *)
Example snapped_ratio_below_zero (k : RangeKnob) :
  _ratio (set_ratio (set_snaps true (set_step (JNum 4) (set_max (JNum 10)
                       (set_min (JNum 1) initial)))) 0 k)
  == - (1 # 9).
Proof. unfold set_ratio. cbn [_ratio]. vm_compute. reflexivity. Qed.

(** ** Bar, ticks and knob updates *)

Lemma updateTicks_frame (r : Range) :
  _knobs (state_of (updateTicks r)) = _knobs r
  /\ _active (state_of (updateTicks r)) = _active r
  /\ calls (state_of (updateTicks r)) = calls r
  /\ value (state_of (updateTicks r)) = value r
  /\ _barL (state_of (updateTicks r)) = _barL r
  /\ _barR (state_of (updateTicks r)) = _barR r.
Proof.
  unfold updateTicks.
  destruct (_snaps r), (_knobs r) as [ks | ] eqn:Hk, (_ticks r); cbn;
    rewrite ?Hk; repeat split.
Qed.

Lemma updateBar_frame (r : Range) :
  _knobs (state_of (updateBar r)) = _knobs r
  /\ _active (state_of (updateBar r)) = _active r
  /\ calls (state_of (updateBar r)) = calls r
  /\ value (state_of (updateBar r)) = value r.
Proof.
  unfold updateBar. destruct (_knobs r) as [ks | ] eqn:Hk.
  - destruct (_dual r);
      match goal with
      | |- context [updateTicks ?r0] =>
          destruct (updateTicks_frame r0) as (H1 & H2 & H3 & H4 & _);
          rewrite H1, H2, H3, H4
      end; cbn; rewrite ?Hk; repeat split.
  - cbn. rewrite Hk. repeat split.
Qed.

Lemma updateBar_extent (r : Range) (ks : Knobs) :
  _knobs r = Some ks ->
  _barL (state_of (updateBar r))
  = (if _dual r
     then Percent (Math_min (_ratio (knob ks RefFirst)) (_ratio (knob ks RefLast)) * 100)
     else Blank)
  /\ _barR (state_of (updateBar r))
     = (if _dual r
        then Percent (100 - Math_max (_ratio (knob ks RefFirst)) (_ratio (knob ks RefLast)) * 100)
        else Percent (100 - _ratio (knob ks RefFirst) * 100)).
Proof.
  intros Hk. unfold updateBar. rewrite Hk.
  destruct (_dual r);
    match goal with
    | |- context [updateTicks ?r0] =>
        destruct (updateTicks_frame r0) as (_ & _ & _ & _ & H5 & H6);
        rewrite H5, H6
    end; split; reflexivity.
Qed.

(** C8. After every bar recomputation: with one knob the left edge is
    fixed at 0% (the inline offset is the empty text) and the right edge
    is [100% - ratio * 100%]; with two knobs the left edge is
    [100% * min(firstRatio, lastRatio)] and the right edge is
    [100% - 100% * max(firstRatio, lastRatio)], whichever of the two knobs
    holds the lower ratio. *)
Theorem updateBar_spans_lower_to_upper (r : Range) (ks : Knobs) :
  _knobs r = Some ks ->
  let first := _ratio (knob ks RefFirst) in
  let last := _ratio (knob ks RefLast) in
  let barL := _barL (state_of (updateBar r)) in
  let barR := _barR (state_of (updateBar r)) in
  (_dual r = false ->
     barL = Blank
     /\ left_edge barL == 0
     /\ same_extent barR (Percent (100 - first * 100)))
  /\ (_dual r = true ->
        same_extent barL (Percent (100 * Qmin first last))
        /\ same_extent barR (Percent (100 - 100 * Qmax first last))
        /\ (first <= last ->
              same_extent barL (Percent (100 * first))
              /\ same_extent barR (Percent (100 - 100 * last)))
        /\ (last <= first ->
              same_extent barL (Percent (100 * last))
              /\ same_extent barR (Percent (100 - 100 * first)))).
Proof.
  intros Hk first last barL barR. subst barL barR.
  destruct (updateBar_extent r ks Hk) as [HL HR]. rewrite HL, HR.
  split; intros Hd; rewrite Hd; cbn.
  - repeat split; reflexivity.
  - unfold Math_min, Math_max. fold first last.
    split; [ring | split; [ring | split]]; intros Hle.
    + rewrite (Q.min_l first last), (Q.max_r first last) by exact Hle.
      split; ring.
    + rewrite (Q.min_r first last), (Q.max_l first last) by exact Hle.
      split; ring.
Qed.

Lemma updateBar_spans_lower_to_upper_witness :
  (_knobs (single_slider (3 # 10)) = Some (OneKnob (knob_at initial (3 # 10) false))
   /\ _dual (single_slider (3 # 10)) = false
   /\ _barL (state_of (updateBar (single_slider (3 # 10)))) = Blank
   /\ same_extent (_barR (state_of (updateBar (single_slider (3 # 10))))) (Percent 70))
  /\ (_knobs (dual_slider (9 # 10) (1 # 10))
      = Some (TwoKnobs (knob_at initial (9 # 10) false) (knob_at initial (1 # 10) true))
      /\ _dual (dual_slider (9 # 10) (1 # 10)) = true
      /\ same_extent (_barL (state_of (updateBar (dual_slider (9 # 10) (1 # 10)))))
           (Percent 10)
      /\ same_extent (_barR (state_of (updateBar (dual_slider (9 # 10) (1 # 10)))))
           (Percent 10)).
Proof.
  split.
  - destruct (updateBar_spans_lower_to_upper (single_slider (3 # 10))
                (OneKnob (knob_at initial (3 # 10) false)) eq_refl) as [Hsingle _].
    destruct (Hsingle eq_refl) as (HL & _ & HR).
    split; [reflexivity | split; [reflexivity | split; [exact HL | ]]].
    destruct (_barR (state_of (updateBar (single_slider (3 # 10))))) as [ | q];
      [exact HR | ].
    cbn in HR |- *. rewrite HR. vm_compute. reflexivity.
  - destruct (updateBar_spans_lower_to_upper (dual_slider (9 # 10) (1 # 10))
                (TwoKnobs (knob_at initial (9 # 10) false) (knob_at initial (1 # 10) true))
                eq_refl) as [_ Hdual].
    destruct (Hdual eq_refl) as (_ & _ & _ & Hswap).
    assert (_ratio (knob_at initial (1 # 10) true) <= _ratio (knob_at initial (9 # 10) false))
      as Hle by (vm_compute; discriminate).
    destruct (Hswap Hle) as [HL HR].
    split; [reflexivity | split; [reflexivity | split]].
    + destruct (_barL (state_of (updateBar (dual_slider (9 # 10) (1 # 10))))) as [ | q];
        [exact HL | ].
      cbn in HL |- *. rewrite HL. vm_compute. reflexivity.
    + destruct (_barR (state_of (updateBar (dual_slider (9 # 10) (1 # 10))))) as [ | q];
        [exact HR | ].
      cbn in HR |- *. rewrite HR. vm_compute. reflexivity.
Defined.

Lemma set_value_domain (r r' : Range) (v : jsval) (k : RangeKnob) :
  _min r' = _min r -> _max r' = _max r -> _step r' = _step r ->
  set_value r' v k = set_value r v k.
Proof.
  intros H1 H2 H3. unfold set_value, valueToRatio, ratioToValue.
  rewrite H1, H2, H3. reflexivity.
Qed.

Lemma ratioToValue_comp (r : Range) (q q' : Q) : q == q' -> ratioToValue r q = ratioToValue r q'.
Proof.
  intros E. unfold ratioToValue.
  rewrite (Math_round_comp (inject_Z (_max r - _min r) * q + inject_Z (_min r))
             (inject_Z (_max r - _min r) * q' + inject_Z (_min r)))
    by (rewrite E; reflexivity).
  reflexivity.
Qed.

Lemma value_survives_the_round_trip (r : Range) (v : Z) :
  (0 < _step r)%Z -> (_min r < _max r)%Z ->
  (_min r <= v <= _max r)%Z -> (_step r | v)%Z ->
  ratioToValue r (valueToRatio r (inject_Z v)) = v.
Proof.
  intros Hs Hmm Hv [k Hk].
  destruct (valueToRatio_on_grid r v Hs Hmm Hv (ex_intro _ k Hk)) as [E _].
  rewrite (ratioToValue_comp r _ _ E). unfold ratioToValue.
  assert (~ inject_Z (_max r - _min r) == 0) as Hnz by (apply inject_Z_nonzero; lia).
  rewrite (Math_round_comp
             (inject_Z (_max r - _min r)
              * (inject_Z (v - _min r) / inject_Z (_max r - _min r))
              + inject_Z (_min r))
             (inject_Z v)).
  - rewrite Math_round_Z. rewrite Hk at 1. rewrite snap_multiple by exact Hs.
    symmetry. exact Hk.
  - rewrite (inject_Z_minus v). field. exact Hnz.
Qed.

Lemma set_value_on_grid (r : Range) (v : Z) (k : RangeKnob) :
  (0 < _step r)%Z -> (_min r < _max r)%Z ->
  (_min r <= v <= _max r)%Z -> (_step r | v)%Z ->
  _val (set_value r (JNum (inject_Z v)) k) = v
  /\ _ratio (set_value r (JNum (inject_Z v)) k)
     == inject_Z (v - _min r) / inject_Z (_max r - _min r).
Proof.
  intros Hs Hmm Hv Hgrid. cbn [set_value isString _val _ratio]. split.
  - apply value_survives_the_round_trip; assumption.
  - apply valueToRatio_on_grid; assumption.
Qed.



Example write_twenty_eighty :
  let r' := state_of (writeValue (JObj (JNum 20) (JNum 80)) (dual_slider (1 # 10) (9 # 10))) in
  calls r' = []
  /\ option_map (fun ks => (_val (knob ks RefFirst), _val (knob ks RefLast))) (_knobs r')
     = Some (20%Z, 80%Z).
Proof. vm_compute. split; reflexivity. Qed.

Lemma andThen_preserves {S : Type} (P : S -> Prop) (o : result S) (f : S -> result S) :
  P (state_of o) -> (forall s, P s -> P (state_of (f s))) -> P (state_of (o >>> f)).
Proof. destruct o; cbn; auto. Qed.

Lemma set_ratio_domain (r r' : Range) (ratio : Q) (k : RangeKnob) :
  _min r' = _min r -> _max r' = _max r -> _step r' = _step r -> _snaps r' = _snaps r ->
  set_ratio r' ratio k = set_ratio r ratio k.
Proof.
  intros H1 H2 H3 H4. unfold set_ratio, valueToRatio, ratioToValue.
  rewrite H1, H2, H3, H4. reflexivity.
Qed.

Lemma updateKnob_picked (current : Coordinates) (rect : ClientRect) (r : Range)
  (a b : RangeKnob) (active : KnobRef) :
  _active r = Some active -> _knobs r = Some (TwoKnobs a b) ->
  picked r ((x current - left rect) / width rect) a b active
    (state_of (updateKnob current rect r)).
Proof.
  intros Ha Hk. unfold updateKnob. rewrite Ha, Hk. cbv zeta.
  change (_dual (with_knobs ?k r)) with (_dual r).
  match goal with
  | |- context [if negb ?c then _ else _] => destruct (negb c)
  end;
  destruct (_dual r);
  match goal with
  | |- context [updateBar ?r0] =>
      destruct (updateBar_frame r0) as (F1 & F2 & _);
      unfold picked; rewrite F1, F2
  end;
  (split; [exact Ha | ]);
  destruct active; cbn; eexists; eexists;
    (split; [reflexivity | ]); unfold moved_to, untouched; cbn; repeat split.
Qed.

Lemma clearListeners_picked range ratio a b active (r : Range) :
  picked range ratio a b active r ->
  picked range ratio a b active (state_of (clearListeners r)).
Proof.
  intros (Ha & a' & b' & Hk & Hm). unfold clearListeners. rewrite Hk. cbn.
  split; [exact Ha | ]. eexists; eexists. split; [reflexivity | ].
  destruct active; unfold moved_to, untouched in *; cbn; exact Hm.
Qed.

Lemma picked_domain (r r' : Range) ratio ratio' a b active (s : Range) :
  _min r' = _min r -> _max r' = _max r -> _step r' = _step r -> _snaps r' = _snaps r ->
  ratio' = ratio ->
  picked r' ratio' a b active s -> picked r ratio a b active s.
Proof.
  intros E1 E2 E3 E4 -> (Ha & a' & b' & Hk & Hm).
  split; [exact Ha | ]. exists a', b'. split; [exact Hk | ].
  unfold moved_to in *.
  rewrite !(set_ratio_domain r r') in Hm by assumption. exact Hm.
Qed.

(** C7. On pointer-down with two knobs the active knob is the one whose
    ratio is closest to the pointer's ratio [(x - left) / width], the
    first knob on a tie; the active knob goes where the pointer is and the
    other knob stays where it was. *)
Theorem pointerDown_picks_closest_knob (ev : UIEvent) (bounding : ClientRect)
  (r : Range) (a b : RangeKnob) :
  _dual r = true -> _knobs r = Some (TwoKnobs a b) -> ~ width bounding == 0 ->
  let ratio := (x (pointerCoord ev) - left bounding) / width bounding in
  let r' := state_of (pointerDown ev bounding r) in
  (Qabs (ratio - _ratio a) <= Qabs (ratio - _ratio b) -> picked r ratio a b RefFirst r')
  /\ (Qabs (ratio - _ratio b) < Qabs (ratio - _ratio a) -> picked r ratio a b RefLast r').
Proof.
  intros Hd Hk _ ratio r'.
  assert (forall active,
            (if Qgtb (Math_abs (ratio - _ratio a)) (Math_abs (ratio - _ratio b))
             then RefLast else RefFirst) = active ->
            picked r ratio a b active r') as Hpick.
  { intros active Hsel. subst r'. unfold pointerDown. cbv zeta.
    match goal with
    | |- context [with_rect (Some ?rc)] => set (rect := rc)
    end.
    assert (left rect = left bounding /\ width rect = width bounding) as [Hl Hw].
    { subst rect.
      destruct (Qltb (x (pointerCoord ev)) (left bounding));
        [ | destruct (Qgtb (x (pointerCoord ev)) (right bounding))]; split; reflexivity. }
    clearbody rect.
    apply andThen_preserves; [apply andThen_preserves | ].
    - unfold setActiveKnob. cbn [_knobs with_rect with_start _dual].
      rewrite Hk, Hd, Hl, Hw. cbn [andb knob]. fold ratio.
      destruct (Qgtb (Math_abs (ratio - _ratio a)) (Math_abs (ratio - _ratio b)));
        subst active; cbn [andThen];
        (eapply picked_domain;
         [ | | | | | apply updateKnob_picked; [reflexivity | exact Hk]];
         try reflexivity; rewrite Hl, Hw; reflexivity).
    - intros s Hs. apply clearListeners_picked, Hs.
    - intros s (Ha & a' & b' & Hks & Hm). rewrite Ha, Hks.
      destruct active; cbn; (split; [exact Ha | ]); eexists; eexists;
        (split; [reflexivity | ]); unfold moved_to, untouched in *; cbn; exact Hm. }
  split; intros Hc; apply Hpick.
  - apply Qgtb_false in Hc. unfold Math_abs. rewrite Hc. reflexivity.
  - apply Qgtb_true in Hc. unfold Math_abs. rewrite Hc. reflexivity.
Qed.

Lemma pointerDown_picks_closest_knob_witness :
  _dual (dual_slider (1 # 10) (9 # 10)) = true
  /\ _knobs (dual_slider (1 # 10) (9 # 10))
     = Some (TwoKnobs (knob_at initial (1 # 10) false) (knob_at initial (9 # 10) true))
  /\ ~ 200 == 0
  /\ Qabs ((60 - 0) / 200 - (1 # 10)) <= Qabs ((60 - 0) / 200 - (9 # 10))
  /\ picked (dual_slider (1 # 10) (9 # 10)) ((60 - 0) / 200)
       (knob_at initial (1 # 10) false) (knob_at initial (9 # 10) true) RefFirst
       (state_of (pointerDown (mkEvent mousedown (mkCoord 60 0)) (mkRect 0 200 200 0)
                    (dual_slider (1 # 10) (9 # 10)))).
Proof.
  assert (~ 200 == 0) as Hw by (intros E; vm_compute in E; discriminate E).
  assert (Qabs ((60 - 0) / 200 - (1 # 10)) <= Qabs ((60 - 0) / 200 - (9 # 10))) as Hc
    by (vm_compute; discriminate).
  destruct (pointerDown_picks_closest_knob (mkEvent mousedown (mkCoord 60 0))
              (mkRect 0 200 200 0) (dual_slider (1 # 10) (9 # 10))
              (knob_at initial (1 # 10) false) (knob_at initial (9 # 10) true)
              eq_refl eq_refl Hw) as [Hfirst _].
  split; [reflexivity | split; [reflexivity | split; [exact Hw | split; [exact Hc | ]]]].
  exact (Hfirst Hc).
Defined.

Example pointer_at_three_tenths :
  let r' :=
    state_of (pointerDown (mkEvent mousedown (mkCoord 60 0)) (mkRect 0 200 200 0)
                (dual_slider (1 # 10) (9 # 10))) in
  _active r' = Some RefFirst
  /\ option_map (fun ks => _val (knob ks RefFirst)) (_knobs r') = Some 30%Z
  /\ option_map (fun ks => knob ks RefLast) (_knobs r')
     = Some (knob_at initial (9 # 10) true)
  /\ value r' = JObj (JNum 30) (JNum 90)
  /\ calls r' = [OnChange (JObj (JNum 30) (JNum 90)); IonChange].
Proof. vm_compute. repeat split. Qed.

End SliderFacts.

Module PullFacts.
Import Pull.
Import Fixtures.

Lemma state_eqb_eq (a b : RefresherState) : state_eqb a b = true <-> a = b.
Proof. destruct a, b; cbn; split; intros H; congruence. Qed.

(** ** The move handler *)

Lemma not_falsy_is_finite (d : Delta) :
  falsy d = false -> exists q, d = Finite q /\ ~ q == 0.
Proof.
  destruct d as [q | | ]; cbn; intros H; try discriminate.
  exists q. split; [reflexivity | ].
  intros E. apply Qeq_bool_iff in E. congruence.
Qed.







(** C6, amended. For a sample that is not multi-touch, met while the engine
    is not busy and, if the engine is Inactive, while the host is scrolled
    to the top, with [pullMin] and [pullDelta] not negative: if [deltaY]
    exceeds [pullMin + pullDelta], [onMove] returns 3, the engine is
    Refreshing, exactly one Refresh event was emitted and Ready was never
    assigned. *)
Theorem onMove_overshoot_begins_refresh (detail : Detail) (w : Refresher) :
  multitouch detail = false ->
  busy w = false ->
  (state w = Inactive -> scrollTop w <= 0) ->
  0 <= pullMin w -> 0 <= pullDelta w ->
  pullMin w + pullDelta w < deltaY detail ->
  fst (onMove detail w) = 3%Z
  /\ state (snd (onMove detail w)) = Refreshing
  /\ exists suffix,
       effects (snd (onMove detail w)) = effects w ++ suffix
       /\ refreshes suffix = 1%nat
       /\ ~ In Ready (assigned suffix).
Proof.
  intros Hmt Hbusy Hscroll Hmin Hdelta Hover. unfold onMove.
  rewrite Hmt, Hbusy.
  assert (Qle_bool (deltaY detail) 0 = false) as ->
    by (apply Qle_bool_false; lra).
  assert (Qeq_bool (deltaY detail) 0 = false) as ->.
  { apply not_true_iff_false. intros E. apply Qeq_bool_iff in E. lra. }
  cbv zeta.
  assert (Qltb (deltaY detail) (pullMin w) = false) as Hlt
    by (apply Qltb_false; lra).
  assert (Qgtb (deltaY detail) (pullMin w + pullDelta w) = true) as Hgt
    by (apply Qltb_true; exact Hover).
  destruct (state_eqb (state w) Inactive) eqn:Hst.
  - apply state_eqb_eq in Hst.
    assert (Qgtb (scrollTop w) 0 = false) as ->
      by (apply Qltb_false, Hscroll, Hst).
    destruct (didStart w) eqn:Hds; cbn -[Qltb Qgtb Qdiv Qplus];
      rewrite ?Hds; cbn -[Qltb Qgtb Qdiv Qplus]; rewrite Hlt, Hgt;
      cbn -[Qltb Qgtb Qdiv Qplus];
      (split; [reflexivity | split; [reflexivity | ]]);
      rewrite <- ?app_assoc; eexists; (split; [reflexivity | ]);
      cbn; (split; [reflexivity | ]); intros [H | [H | H]]; discriminate || exact H.
  - destruct (didStart w) eqn:Hds; cbn -[Qltb Qgtb Qdiv Qplus];
      rewrite ?Hds; cbn -[Qltb Qgtb Qdiv Qplus]; rewrite Hlt, Hgt;
      cbn -[Qltb Qgtb Qdiv Qplus];
      (split; [reflexivity | split; [reflexivity | ]]);
      rewrite <- ?app_assoc; eexists; (split; [reflexivity | ]);
      cbn; (split; [reflexivity | ]); intros [H | H]; discriminate || exact H.
Qed.

Lemma onMove_overshoot_begins_refresh_witness :
  multitouch (mkDetail (Some 1%nat) 130) = false
  /\ busy (onStart (initial 0)) = false
  /\ scrollTop (onStart (initial 0)) <= 0
  /\ 0 <= pullMin (onStart (initial 0))
  /\ 0 <= pullDelta (onStart (initial 0))
  /\ pullMin (onStart (initial 0)) + pullDelta (onStart (initial 0)) < 130
  /\ fst (onMove (mkDetail (Some 1%nat) 130) (onStart (initial 0))) = 3%Z
  /\ state (snd (onMove (mkDetail (Some 1%nat) 130) (onStart (initial 0)))) = Refreshing.
Proof.
  assert (scrollTop (onStart (initial 0)) <= 0) as Hs by (vm_compute; discriminate).
  assert (0 <= pullMin (onStart (initial 0))) as Hm by (vm_compute; discriminate).
  assert (0 <= pullDelta (onStart (initial 0))) as Hd by (vm_compute; discriminate).
  assert (pullMin (onStart (initial 0)) + pullDelta (onStart (initial 0)) < 130) as Ho
    by reflexivity.
  destruct (onMove_overshoot_begins_refresh (mkDetail (Some 1%nat) 130) (onStart (initial 0))
              eq_refl eq_refl (fun _ => Hs) Hm Hd Ho) as (Hret & Hstate & _).
  repeat (split; [first [reflexivity | assumption] | ]). exact Hstate.
Defined.

(** C6 as stated fails: with the default thresholds (60 and 60) and the
    engine Inactive, a sample of [deltaY = 130] that carries two touches is
    ignored, and one met while the host is scrolled by 10 stops at the
    scroll check; with [pullDelta = -30] a sample of 40 exceeds
    [pullMin + pullDelta] and is still below [pullMin].  None begins a
    refresh. *)
Lemma overshoot_without_refresh :
  (busy (onStart (initial 0)) = false
   /\ pullMin (onStart (initial 0)) + pullDelta (onStart (initial 0)) < 130
   /\ fst (onMove (mkDetail (Some 2%nat) 130) (onStart (initial 0))) = 1%Z
   /\ state (snd (onMove (mkDetail (Some 2%nat) 130) (onStart (initial 0)))) <> Refreshing
   /\ refreshes (effects (snd (onMove (mkDetail (Some 2%nat) 130) (onStart (initial 0)))))
      = 0%nat)
  /\ (busy (onStart (initial 10)) = false
      /\ pullMin (onStart (initial 10)) + pullDelta (onStart (initial 10)) < 130
      /\ fst (onMove (mkDetail (Some 1%nat) 130) (onStart (initial 10))) = 7%Z
      /\ state (snd (onMove (mkDetail (Some 1%nat) 130) (onStart (initial 10)))) <> Refreshing
      /\ refreshes (effects (snd (onMove (mkDetail (Some 1%nat) 130) (onStart (initial 10)))))
         = 0%nat)
  /\ (busy (configured 60 (-30) 0) = false
      /\ pullMin (configured 60 (-30) 0) + pullDelta (configured 60 (-30) 0) < 40
      /\ fst (onMove (mkDetail (Some 1%nat) 40) (configured 60 (-30) 0)) = 2%Z
      /\ state (snd (onMove (mkDetail (Some 1%nat) 40) (configured 60 (-30) 0))) <> Refreshing
      /\ refreshes (effects (snd (onMove (mkDetail (Some 1%nat) 40) (configured 60 (-30) 0))))
         = 0%nat).
Proof.
  repeat split; try discriminate.
Qed.

(** ** The close sequence *)

Lemma pending_iff (t : nat) (w : Refresher) :
  existsb (Nat.eqb t) (timers w) = true <-> In t (timers w).
Proof.
  rewrite existsb_exists. split.
  - intros (u & Hin & E). apply Nat.eqb_eq in E. subst u. exact Hin.
  - intros Hin. exists t. split; [exact Hin | apply Nat.eqb_refl].
Qed.

Lemma clearTimeout_timers (t u : nat) (w : Refresher) :
  In u (timers (clearTimeout t w)) <-> In u (timers w) /\ u <> t.
Proof.
  unfold clearTimeout. cbn. rewrite filter_In, negb_true_iff, Nat.eqb_neq.
  reflexivity.
Qed.

Lemma close_callback_resets (ev : bool) (t : nat) (w : Refresher) :
  is_reset (close_callback ev t w)
  /\ effects (close_callback ev t w) = effects w ++ [Assign Inactive; DomWrite neutral]
  /\ appliedStyles (close_callback ev t w) = false
  /\ transitionEnd (close_callback ev t w) = transitionEnd w
  /\ timers (close_callback ev t w) = timers (if ev then clearTimeout t w else w).
Proof.
  unfold close_callback, is_reset. destruct ev; cbn; rewrite <- app_assoc;
    repeat split.
Qed.

Lemma timeout_fires_pending (t : nat) (w : Refresher) :
  In t (timers w) -> timeout_fires t w = close_callback false t (clearTimeout t w).
Proof. intros H. unfold timeout_fires. apply pending_iff in H. rewrite H. reflexivity. Qed.

Lemma timeout_fires_not_pending (t : nat) (w : Refresher) :
  ~ In t (timers w) -> timeout_fires t w = w.
Proof.
  intros H. unfold timeout_fires.
  destruct (existsb (Nat.eqb t) (timers w)) eqn:E; [ | reflexivity].
  apply pending_iff in E. contradiction.
Qed.

Lemma timeout_fires_keeps_reset (t : nat) (w : Refresher) :
  is_reset w -> is_reset (timeout_fires t w).
Proof.
  intros H. unfold timeout_fires.
  destruct (existsb (Nat.eqb t) (timers w)); [ | exact H].
  apply close_callback_resets.
Qed.

Lemma timeout_fires_keeps_pending (t u : nat) (w : Refresher) :
  In t (timers w) -> t <> u -> In t (timers (timeout_fires u w)).
Proof.
  intros Hin Hne. unfold timeout_fires.
  destruct (existsb (Nat.eqb u) (timers w)); [ | exact Hin].
  destruct (close_callback_resets false u (clearTimeout u w)) as (_ & _ & _ & _ & ->).
  apply clearTimeout_timers. split; assumption.
Qed.

Lemma timeouts_fire_resets (t : nat) (l : list nat) (w : Refresher) :
  is_reset w \/ (In t (timers w) /\ In t l) -> is_reset (timeouts_fire l w).
Proof.
  revert w. induction l as [ | u l IH]; intros w H.
  - destruct H as [H | [_ []]]. exact H.
  - cbn. apply IH. destruct H as [H | [Hp Hin]].
    + left. apply timeout_fires_keeps_reset, H.
    + destruct (Nat.eq_dec t u) as [-> | Hne].
      * left. rewrite timeout_fires_pending by exact Hp. apply close_callback_resets.
      * right. split; [apply timeout_fires_keeps_pending; assumption | ].
        destruct Hin as [E | Hin]; [congruence | exact Hin].
Qed.

(** C5. Two calls of [complete()] in a row, from any state: both calls
    return (the methods only assign fields, arm a timeout and queue a
    style write, none of which can throw), the engine is Completing with
    both timeouts pending, and once either of them has expired, in whatever
    order and among whatever other expirations, the engine is Inactive with
    [progress] 0 and [didStart] false. *)
Theorem complete_twice_ends_inactive (w : Refresher) (expirations : list nat) :
  In (next_timer w) expirations \/ In (S (next_timer w)) expirations ->
  state (complete (complete w)) = Completing
  /\ In (next_timer w) (timers (complete (complete w)))
  /\ In (S (next_timer w)) (timers (complete (complete w)))
  /\ state (timeouts_fire expirations (complete (complete w))) = Inactive
  /\ progress (timeouts_fire expirations (complete (complete w))) = 0
  /\ didStart (timeouts_fire expirations (complete (complete w))) = false.
Proof.
  intros Hexp.
  assert (timers (complete (complete w)) = (timers w ++ [next_timer w]) ++ [S (next_timer w)])
    as Ht by reflexivity.
  split; [reflexivity | ].
  split; [rewrite Ht, !in_app_iff; cbn; auto | ].
  split; [rewrite Ht, !in_app_iff; cbn; auto | ].
  destruct Hexp as [Hexp | Hexp].
  - apply (timeouts_fire_resets (next_timer w)). right.
    split; [rewrite Ht, !in_app_iff; cbn; auto | exact Hexp].
  - apply (timeouts_fire_resets (S (next_timer w))). right.
    split; [rewrite Ht, !in_app_iff; cbn; auto | exact Hexp].
Qed.

Lemma complete_twice_ends_inactive_witness :
  (In (next_timer overshot) [1%nat; 0%nat] \/ In (S (next_timer overshot)) [1%nat; 0%nat])
  /\ state (complete (complete overshot)) = Completing
  /\ state (timeouts_fire [1%nat; 0%nat] (complete (complete overshot))) = Inactive.
Proof.
  assert (In (next_timer overshot) [1%nat; 0%nat] \/ In (S (next_timer overshot)) [1%nat; 0%nat])
    as Hexp by (left; simpl; right; left; reflexivity).
  destruct (complete_twice_ends_inactive overshot [1%nat; 0%nat] Hexp)
    as (Hbusy & _ & _ & Hstate & _).
  split; [exact Hexp | split; [exact Hbusy | exact Hstate]].
Defined.

(** No method registers anything for the transition end: the list of
    registrations is the same after every method and notification. *)
Lemma transitionEnd_never_written (detail : Detail) (t : nat) (w : Refresher) :
  transitionEnd (onStart w) = transitionEnd w
  /\ transitionEnd (snd (onMove detail w)) = transitionEnd w
  /\ transitionEnd (onEnd w) = transitionEnd w
  /\ transitionEnd (complete w) = transitionEnd w
  /\ transitionEnd (cancel w) = transitionEnd w
  /\ transitionEnd (timeout_fires t w) = transitionEnd w.
Proof.
  repeat split.
  - unfold onMove.
    repeat match goal with
           | |- context [if ?c then _ else _] => destruct c
           end; reflexivity.
  - unfold onEnd.
    repeat match goal with
           | |- context [if ?c then _ else _] => destruct c
           end; reflexivity.
  - unfold timeout_fires.
    destruct (existsb (Nat.eqb t) (timers w)); reflexivity.
Qed.

Example pull_release_complete :
  let w1 := snd (onMove (mkDetail (Some 1%nat) 30) (onStart (initial 0))) in
  let w2 := snd (onMove (mkDetail (Some 1%nat) 70) w1) in
  let w3 := onEnd w2 in
  let w4 := complete w3 in
  let w5 := timeout_fires 0 w4 in
  state w1 = Pulling /\ state w2 = Ready /\ state w3 = Refreshing
  /\ state w4 = Completing /\ state w5 = Inactive
  /\ assigned (effects w5)
     = [Inactive; Pulling; Pulling; Ready; Refreshing; Completing; Inactive]
  /\ refreshes (effects w5) = 1%nat
  /\ timers w5 = [].
Proof. vm_compute. repeat split. Qed.

Lemma step_registers_nothing (s : Step) (w : Refresher) :
  transitionEnd w = [] -> transitionEnd (step s w) = [].
Proof.
  intros H.
  destruct (transitionEnd_never_written
              (match s with CallOnMove d => d | _ => mkDetail None 0 end)
              (match s with TimeoutFires t => t | _ => 0%nat end) w)
    as (H1 & H2 & H3 & H4 & H5 & H6).
  destruct s; cbn [step].
  - rewrite H1. exact H.
  - rewrite H2. exact H.
  - rewrite H3. exact H.
  - rewrite H4. exact H.
  - rewrite H5. exact H.
  - rewrite H6. exact H.
  - unfold transition_ended. rewrite H. exact H.
Qed.

Lemma run_registers_nothing (l : list Step) (w : Refresher) :
  transitionEnd w = [] -> transitionEnd (run l w) = [].
Proof.
  revert w. induction l as [ | s l IH]; intros w H; [exact H | ].
  cbn. apply IH, step_registers_nothing, H.
Qed.

(** C4.  The close sequence is meant to end on the transition-finished
    signal or on the fallback timer, whichever comes first (the inner
    [close] clears the timer when it is handed the event), but the
    registration for the signal is commented out.  So from the component
    as constructed, after any run of calls and notifications and then
    [close(state, delay)]: the engine is in [state] with the timer
    pending, and the transition-finished signal changes nothing: it resets
    nothing and leaves the timer pending.  The inner [close] handed the
    event would reset the engine, write the neutral style and clear the
    timer; as it is, only the expiry of the timer resets. *)
Theorem transition_end_is_never_heard (l : list Step) (pullMin pullDelta scroll : Q)
  (s : RefresherState) (delay : string) :
  let before := run l (configured pullMin pullDelta scroll) in
  let timer := next_timer before in
  let closing := close s delay before in
  state closing = s
  /\ In timer (timers closing)
  /\ transition_ended closing = closing
  /\ (is_reset (close_callback true timer closing)
      /\ ~ In timer (timers (close_callback true timer closing))
      /\ effects (close_callback true timer closing)
         = effects closing ++ [Assign Inactive; DomWrite neutral])
  /\ (is_reset (timeout_fires timer closing)
      /\ effects (timeout_fires timer closing)
         = effects closing ++ [Assign Inactive; DomWrite neutral]).
Proof.
  intros before timer closing.
  assert (In timer (timers closing)) as Hin
    by (subst closing timer; cbn; rewrite in_app_iff; cbn; auto).
  assert (transitionEnd closing = []) as Hte.
  { subst closing. change (transitionEnd (close s delay before)) with (transitionEnd before).
    subst before. apply run_registers_nothing. reflexivity. }
  split; [reflexivity | ].
  split; [exact Hin | ].
  split; [unfold transition_ended; rewrite Hte; reflexivity | ].
  split.
  - destruct (close_callback_resets true timer closing) as (H1 & H2 & _ & _ & H5).
    split; [exact H1 | split; [ | exact H2]].
    rewrite H5, clearTimeout_timers. intros [_ Hne]. apply Hne. reflexivity.
  - rewrite timeout_fires_pending by exact Hin.
    destruct (close_callback_resets false timer (clearTimeout timer closing))
      as (H1 & H2 & _).
    split; [exact H1 | exact H2].
Qed.

(** With the default thresholds: an overshoot begins the refresh,
    [complete()] starts the close sequence, and the transition-finished
    signal arriving before the timer leaves the engine Completing with the
    timer pending. *)
Example transition_end_first_resets_nothing :
  state (complete (snd (onMove (mkDetail (Some 1%nat) 130) (onStart (initial 0)))))
  = Completing
  /\ timers (complete (snd (onMove (mkDetail (Some 1%nat) 130) (onStart (initial 0)))))
     = [0%nat]
  /\ state (transition_ended
              (complete (snd (onMove (mkDetail (Some 1%nat) 130) (onStart (initial 0))))))
     = Completing
  /\ timers (transition_ended
               (complete (snd (onMove (mkDetail (Some 1%nat) 130) (onStart (initial 0))))))
     = [0%nat].
Proof. repeat split. Qed.

End PullFacts.

(** * Further properties of the two components *)

Module SliderMore.
Import Slider.
Import SliderFacts.
Import Fixtures.

(** ** The numeric inputs *)

(** X1. The step of a range stays positive under assignment: a finite number
    (or a string that converts to one) that rounds to a positive integer is
    stored as that integer; one that rounds to zero or less, and a value
    that converts to NaN, leave the range as it was; min and max likewise
    ignore a value that converts to NaN.  (An infinite number is outside
    [jsval]; the guard [val > 0] would let +Infinity through, which is
    positive as well.) *)
Theorem set_step_keeps_positive (val : jsval) (r : Range) :
  (0 < _step r)%Z ->
  (0 < _step (set_step val r))%Z
  /\ (forall n, ToNumber val = Some n -> (0 < Math_round n)%Z ->
        _step (set_step val r) = Math_round n)
  /\ (forall n, ToNumber val = Some n -> (Math_round n <= 0)%Z -> set_step val r = r)
  /\ (ToNumber val = None ->
        set_step val r = r /\ set_min val r = r /\ set_max val r = r).
Proof.
  intros Hpos. unfold set_step, set_min, set_max.
  destruct (ToNumber val) as [n | ].
  - destruct (0 <? Math_round n)%Z eqn:E.
    + apply Z.ltb_lt in E. repeat split; try discriminate.
      * exact E.
      * intros m [= <-] _. reflexivity.
      * intros m [= <-] H. lia.
    + apply Z.ltb_ge in E. repeat split; try discriminate.
      * exact Hpos.
      * intros m [= <-] H. lia.
  - destruct r. repeat split; try discriminate. exact Hpos.
Qed.

Lemma set_step_keeps_positive_witness :
  (0 < _step documented_domain)%Z
  /\ (0 < _step (set_step (JStr None) documented_domain))%Z
  /\ set_step (JNum (-2)) documented_domain = documented_domain
  /\ _step (set_step (JNum (5 # 2)) documented_domain) = 3%Z.
Proof.
  destruct (set_step_keeps_positive (JStr None) documented_domain eq_refl) as (H1 & _).
  destruct (set_step_keeps_positive (JNum (-2)) documented_domain eq_refl)
    as (_ & _ & H3 & _).
  destruct (set_step_keeps_positive (JNum (5 # 2)) documented_domain eq_refl)
    as (_ & H2 & _).
  split; [reflexivity | split; [exact H1 | split]].
  - apply (H3 (-2)); [reflexivity | vm_compute; discriminate].
  - exact (H2 (5 # 2) eq_refl eq_refl).
Defined.

(** X2. On a domain with min < max and a positive step, a value that is a multiple
    of step within [min, max] survives the round trip:
    ratioToValue(valueToRatio(v)) = v, with valueToRatio(v) = (v - min) / (max
    - min), a ratio in [0, 1]. *)
Theorem ratioToValue_valueToRatio_on_grid (r : Range) (v : Z) :
  (0 < _step r)%Z -> (_min r < _max r)%Z ->
  (_min r <= v <= _max r)%Z -> (_step r | v)%Z ->
  ratioToValue r (valueToRatio r (inject_Z v)) = v
  /\ valueToRatio r (inject_Z v) == inject_Z (v - _min r) / inject_Z (_max r - _min r)
  /\ 0 <= valueToRatio r (inject_Z v) <= 1.
Proof.
  intros Hs Hmm Hv Hgrid.
  destruct (valueToRatio_on_grid r v Hs Hmm Hv Hgrid) as [E Hunit].
  split; [ | split; [exact E | exact Hunit]].
  apply value_survives_the_round_trip; assumption.
Qed.

Lemma ratioToValue_valueToRatio_on_grid_witness :
  (0 < _step documented_domain)%Z
  /\ (_min documented_domain < _max documented_domain)%Z
  /\ (_min documented_domain <= 30 <= _max documented_domain)%Z
  /\ (_step documented_domain | 30)%Z
  /\ ratioToValue documented_domain (valueToRatio documented_domain (inject_Z 30)) = 30%Z.
Proof.
  assert ((_min documented_domain <= 30 <= _max documented_domain)%Z) as Hr
    by (vm_compute; split; discriminate).
  assert ((_step documented_domain | 30)%Z) as Hg by (exists 10%Z; reflexivity).
  split; [reflexivity | split; [reflexivity | split; [exact Hr | split; [exact Hg | ]]]].
  exact (proj1 (ratioToValue_valueToRatio_on_grid documented_domain 30 eq_refl eq_refl Hr Hg)).
Defined.

Lemma snap_range (r : Range) (q : Q) :
  (0 < _step r)%Z -> (_step r | _min r)%Z -> (_step r | _max r)%Z ->
  inject_Z (_min r) <= q -> q <= inject_Z (_max r) ->
  (_min r <= Math_round (q / inject_Z (_step r)) * _step r <= _max r)%Z.
Proof.
  intros Hs [a Ha] [b Hb] Hlo Hhi.
  assert (0 < inject_Z (_step r)) as Hsq
    by (change 0 with (inject_Z 0); rewrite <- Zlt_Qlt; exact Hs).
  assert (a <= Math_round (q / inject_Z (_step r)) <= b)%Z as [H1 H2].
  { split.
    - rewrite <- (snap_multiple a (_step r) Hs). rewrite <- Ha.
      apply Math_round_mono. apply Qmult_le_compat_r; [exact Hlo | ].
      apply Qlt_le_weak, Qinv_lt_0_compat, Hsq.
    - rewrite <- (snap_multiple b (_step r) Hs). rewrite <- Hb.
      apply Math_round_mono. apply Qmult_le_compat_r; [exact Hhi | ].
      apply Qlt_le_weak, Qinv_lt_0_compat, Hsq. }
  set (M := Math_round (q / inject_Z (_step r))) in *. clearbody M.
  rewrite Ha, Hb. nia.
Qed.

(** X3. Where step divides min and max (min < max), assigning any number n to a
    knob's value stores round(clamp(min, n, max) / step) * step, which lies in
    [min, max], and a ratio equal to (value - min) / (max - min), within [0,
    1]. *)
Theorem set_value_stores_snapped_clamp (r : Range) (n : Q) (k : RangeKnob) :
  (0 < _step r)%Z -> (_min r < _max r)%Z ->
  (_step r | _min r)%Z -> (_step r | _max r)%Z ->
  _val (set_value r (JNum n) k)
  = spec_snap (_step r) (clamp (inject_Z (_min r)) n (inject_Z (_max r)))
  /\ (_min r <= _val (set_value r (JNum n) k) <= _max r)%Z
  /\ _ratio (set_value r (JNum n) k)
     == inject_Z (_val (set_value r (JNum n) k) - _min r) / inject_Z (_max r - _min r)
  /\ 0 <= _ratio (set_value r (JNum n) k) <= 1.
Proof.
  intros Hs Hmm Hmin Hmax. cbn [set_value isString _val _ratio].
  set (v := spec_snap (_step r) (clamp (inject_Z (_min r)) n (inject_Z (_max r)))).
  assert (_min r <= v <= _max r)%Z as Hv.
  { unfold v, spec_snap.
    destruct (clamp_bounds (inject_Z (_min r)) n (inject_Z (_max r))) as [Hlo Hhi];
      [rewrite <- Zle_Qle; lia | ].
    apply snap_range; assumption. }
  assert ((_step r | v)%Z) as Hgrid by (eexists; reflexivity).
  assert (valueToRatio r n = inject_Z (v - _min r) / inject_Z (_max r - _min r)) as E
    by reflexivity.
  assert (ratioToValue r (valueToRatio r n) = v) as Hv'.
  { destruct (valueToRatio_on_grid r v Hs Hmm Hv Hgrid) as [E' _].
    rewrite (ratioToValue_comp r (valueToRatio r n) (valueToRatio r (inject_Z v)))
      by (rewrite E, E'; reflexivity).
    apply value_survives_the_round_trip; assumption. }
  rewrite Hv'. split; [reflexivity | split; [exact Hv | split]].
  - rewrite E. reflexivity.
  - destruct (valueToRatio_on_grid r v Hs Hmm Hv Hgrid) as [E' Hu].
    rewrite E, <- E'. exact Hu.
Qed.

Lemma set_value_stores_snapped_clamp_witness :
  (0 < _step documented_domain)%Z
  /\ (_min documented_domain < _max documented_domain)%Z
  /\ (_step documented_domain | _min documented_domain)%Z
  /\ (_step documented_domain | _max documented_domain)%Z
  /\ _val (set_value documented_domain (JNum 500) (knob_at documented_domain 0 false))
     = spec_snap 3 (clamp 21 500 72)
  /\ (21 <= _val (set_value documented_domain (JNum 500)
                    (knob_at documented_domain 0 false)) <= 72)%Z.
Proof.
  assert ((_step documented_domain | _min documented_domain)%Z) as Hmin
    by (exists 7%Z; reflexivity).
  assert ((_step documented_domain | _max documented_domain)%Z) as Hmax
    by (exists 24%Z; reflexivity).
  destruct (set_value_stores_snapped_clamp documented_domain 500
              (knob_at documented_domain 0 false) eq_refl eq_refl Hmin Hmax)
    as (Hval & Hrange & _).
  split; [reflexivity | split; [reflexivity | split; [exact Hmin | split; [exact Hmax | ]]]].
  split; [exact Hval | exact Hrange].
Defined.

Lemma set_value_ignores_non_numbers (r : Range) (v : jsval) (k : RangeKnob) :
  (forall n, v <> JNum n) -> (forall n, v <> JStr (Some n)) ->
  set_value r v k = k.
Proof.
  intros Hnum Hstr. destruct v as [ | | | n | [n | ] | lo hi]; cbn; try reflexivity.
  - exfalso. apply (Hnum n). reflexivity.
  - exfalso. apply (Hstr n). reflexivity.
Qed.

Lemma Math_round_div_mono (n n' s : Z) :
  (0 < s)%Z -> (n <= n')%Z ->
  (Math_round (inject_Z n / inject_Z s) <= Math_round (inject_Z n' / inject_Z s))%Z.
Proof.
  intros Hs Hn. rewrite !Math_round_div by exact Hs.
  apply Z.div_le_mono; lia.
Qed.

(** X4. ratioToValue is monotone: with min <= max and a positive step, a larger
    ratio never maps to a smaller value (dragging towards the end of the track
    never lowers the value). *)
Theorem ratioToValue_monotone (r : Range) (q q' : Q) :
  (0 < _step r)%Z -> (_min r <= _max r)%Z -> q <= q' ->
  (ratioToValue r q <= ratioToValue r q')%Z.
Proof.
  intros Hs Hmm Hq. unfold ratioToValue.
  apply Z.mul_le_mono_nonneg_r; [lia | ].
  apply Math_round_div_mono; [exact Hs | ].
  apply Math_round_mono.
  assert (0 <= inject_Z (_max r - _min r)) as Hd
    by (change 0 with (inject_Z 0); rewrite <- Zle_Qle; lia).
  assert (inject_Z (_max r - _min r) * q <= inject_Z (_max r - _min r) * q') as Hm.
  { rewrite !(Qmult_comm (inject_Z (_max r - _min r))).
    apply Qmult_le_compat_r; assumption. }
  lra.
Qed.

Lemma ratioToValue_monotone_witness :
  (0 < _step coarse_domain)%Z /\ (_min coarse_domain <= _max coarse_domain)%Z
  /\ (3 # 10) <= (7 # 10)
  /\ (ratioToValue coarse_domain (3 # 10) <= ratioToValue coarse_domain (7 # 10))%Z.
Proof.
  assert ((_min coarse_domain <= _max coarse_domain)%Z) as Hmm by (vm_compute; discriminate).
  assert ((3 # 10) <= (7 # 10)) as Hq by (vm_compute; discriminate).
  split; [reflexivity | split; [exact Hmm | split; [exact Hq | ]]].
  exact (ratioToValue_monotone coarse_domain (3 # 10) (7 # 10) eq_refl Hmm Hq).
Defined.

(** X5. The knob's ratio setter stores a ratio within [0, 1] whenever snaps is
    off, and also with snaps on provided min < max and step divides both min
    and max. *)
Theorem set_ratio_stays_on_track (r : Range) (ratio : Q) (k : RangeKnob) :
  _snaps r = false
  \/ ((0 < _step r)%Z /\ (_min r < _max r)%Z
      /\ (_step r | _min r)%Z /\ (_step r | _max r)%Z) ->
  0 <= _ratio (set_ratio r ratio k) <= 1.
Proof.
  intros [Hoff | (Hs & Hmm & Hmin & Hmax)].
  - apply set_ratio_unit_interval_without_snaps, Hoff.
  - apply set_ratio_unit_interval_aligned; assumption.
Qed.

Lemma set_ratio_stays_on_track_witness :
  _snaps coarse_domain = false
  /\ 0 <= _ratio (set_ratio coarse_domain 5 (knob_at coarse_domain 0 false)) <= 1.
Proof.
  split; [reflexivity | ].
  exact (set_ratio_stays_on_track coarse_domain 5 (knob_at coarse_domain 0 false)
           (or_introl eq_refl)).
Defined.

(** X6. Where step divides min and max (min < max), assigning a knob the ratio it
    already holds changes nothing: the value is the same and the ratio is
    equal to the one held. *)
Theorem set_ratio_settles (r : Range) (ratio : Q) (k : RangeKnob) :
  (0 < _step r)%Z -> (_min r < _max r)%Z ->
  (_step r | _min r)%Z -> (_step r | _max r)%Z ->
  _val (set_ratio r (_ratio (set_ratio r ratio k)) (set_ratio r ratio k))
  = _val (set_ratio r ratio k)
  /\ _ratio (set_ratio r (_ratio (set_ratio r ratio k)) (set_ratio r ratio k))
     == _ratio (set_ratio r ratio k).
Proof.
  intros Hs Hmm Hmin Hmax.
  pose proof (set_ratio_unit_interval_aligned r ratio k Hs Hmm Hmin Hmax) as [Hlo Hhi].
  pose proof (clamp_bounds 0 ratio 1 ltac:(lra)) as Hc.
  destruct (ratioToValue_range_aligned r (clamp 0 ratio 1) Hs ltac:(lia) Hmin Hmax Hc)
    as [Hrange Hgrid].
  unfold set_ratio in *. cbn [_ratio _val] in *.
  destruct (_snaps r) eqn:Hsn.
  - assert (ratioToValue r
              (clamp 0 (valueToRatio r (inject_Z (ratioToValue r (clamp 0 ratio 1)))) 1)
            = ratioToValue r (clamp 0 ratio 1)) as Hv.
    { rewrite (ratioToValue_comp r _ _ (clamp_inside 0 _ 1 Hlo Hhi)).
      apply value_survives_the_round_trip; assumption. }
    rewrite Hv. split; reflexivity.
  - assert (ratioToValue r (clamp 0 (clamp 0 ratio 1) 1)
            = ratioToValue r (clamp 0 ratio 1)) as Hv
      by (apply ratioToValue_comp, clamp_inside; assumption).
    split; [exact Hv | apply clamp_inside; assumption].
Qed.

Lemma set_ratio_settles_witness :
  (0 < _step snapping_domain)%Z
  /\ (_min snapping_domain < _max snapping_domain)%Z
  /\ (_step snapping_domain | _min snapping_domain)%Z
  /\ (_step snapping_domain | _max snapping_domain)%Z
  /\ _val (set_ratio snapping_domain
             (_ratio (set_ratio snapping_domain (47 # 100) (knob_at snapping_domain 0 false)))
             (set_ratio snapping_domain (47 # 100) (knob_at snapping_domain 0 false)))
     = _val (set_ratio snapping_domain (47 # 100) (knob_at snapping_domain 0 false)).
Proof.
  assert ((_step snapping_domain | _min snapping_domain)%Z) as Hmin
    by (exists 10%Z; reflexivity).
  assert ((_step snapping_domain | _max snapping_domain)%Z) as Hmax
    by (exists 20%Z; reflexivity).
  destruct (set_ratio_settles snapping_domain (47 # 100) (knob_at snapping_domain 0 false)
              eq_refl eq_refl Hmin Hmax) as [Hval _].
  split; [reflexivity | split; [reflexivity | split; [exact Hmin | split; [exact Hmax | ]]]].
  exact Hval.
Defined.

(** ** Ticks *)

Lemma steps_from_succ {A : Type} (f : nat -> A) (n : nat) :
  map f (seq 0 (S n)) = f 0%nat :: map (fun k => f (S k)) (seq 0 n).
Proof. cbn [seq map]. rewrite <- seq_shift, map_map. reflexivity. Qed.

Lemma ticks_loop_values (r : Range) (fuel : nat) :
  (0 < _step r)%Z ->
  forall value : Z,
    (Z.to_nat (_max r - value + 1) <= fuel)%nat ->
    ticks_loop r fuel value
    = map (fun k => tick_of r (value + Z.of_nat k * _step r))
          (seq 0 (Z.to_nat ((_max r - value) / _step r + 1))).
Proof.
  intros Hs. induction fuel as [ | fuel IH]; intros value Hfuel.
  - assert (_max r < value)%Z as Hgt by lia.
    assert ((_max r - value) / _step r < 0)%Z by (apply Z.div_lt_upper_bound; lia).
    replace (Z.to_nat ((_max r - value) / _step r + 1)) with 0%nat by lia.
    reflexivity.
  - cbn [ticks_loop]. destruct (value <=? _max r)%Z eqn:E.
    + apply Z.leb_le in E.
      assert (0 <= (_max r - value) / _step r)%Z as Hq by (apply Z.div_pos; lia).
      replace (Z.to_nat ((_max r - value) / _step r + 1))
        with (S (Z.to_nat ((_max r - value) / _step r))) by lia.
      rewrite steps_from_succ. cbn [Z.of_nat].
      rewrite Z.mul_0_l, Z.add_0_r. unfold tick_of at 1. f_equal.
      rewrite IH by lia.
      replace ((_max r - (value + _step r)) / _step r + 1)%Z
        with ((_max r - value) / _step r)%Z.
      * apply map_ext. intros k. f_equal. lia.
      * replace (_max r - (value + _step r))%Z with (_max r - value + -1 * _step r)%Z by lia.
        rewrite Z.div_add by lia. lia.
    + apply Z.leb_gt in E.
      assert ((_max r - value) / _step r < 0)%Z by (apply Z.div_lt_upper_bound; lia).
      replace (Z.to_nat ((_max r - value) / _step r + 1)) with 0%nat by lia.
      reflexivity.
Qed.

Lemma updateTicks_keeps_places (r : Range) (ts : list Tick) :
  _ticks r = Some ts ->
  exists ts',
    _ticks (state_of (updateTicks r)) = Some ts'
    /\ map (fun t => (tick_ratio t, tick_left t)) ts'
       = map (fun t => (tick_ratio t, tick_left t)) ts.
Proof.
  intros Ht. unfold updateTicks. rewrite Ht.
  destruct (_snaps r); [destruct (_knobs r) as [ks | ] | ]; cbn;
    try (exists ts; split; [exact Ht | reflexivity]).
  eexists. split; [reflexivity | ]. rewrite map_map. reflexivity.
Qed.

(** X7. With a positive step the tick loop of createTicks ends by its own test
    (more rounds give the same list) and leaves floor((max - min) / step) + 1
    ticks, one for each of min, min + step, ..., each placed at valueToRatio
    of its value and labelled ratio * 100 %. *)
Theorem createTicks_frame_places (r : Range) :
  (0 < _step r)%Z ->
  (forall extra : nat,
      ticks_loop r (ticks_fuel r + extra) (_min r) = ticks_loop r (ticks_fuel r) (_min r))
  /\ exists ts,
       _ticks (state_of (createTicks_frame r)) = Some ts
       /\ List.length ts = Z.to_nat ((_max r - _min r) / _step r + 1)
       /\ map (fun t => (tick_ratio t, tick_left t)) ts
          = map (fun v => (valueToRatio r (inject_Z v),
                           Percent (valueToRatio r (inject_Z v) * 100)))
                (tick_values r).
Proof.
  intros Hs.
  assert (forall extra : nat,
             ticks_loop r (ticks_fuel r + extra) (_min r)
             = map (tick_of r) (tick_values r)) as Hloop.
  { intros extra. unfold ticks_fuel, tick_values.
    rewrite ticks_loop_values by (exact Hs || lia).
    rewrite map_map. reflexivity. }
  split.
  - intros extra. rewrite Hloop, <- (Hloop 0%nat), Nat.add_0_r. reflexivity.
  - unfold createTicks_frame.
    destruct (updateTicks_keeps_places
                (with_ticks (Some (ticks_loop r (ticks_fuel r) (_min r))) r)
                (ticks_loop r (ticks_fuel r) (_min r)) eq_refl) as (ts & Hts & Hplaces).
    exists ts. split; [exact Hts | ].
    pose proof (Hloop 0%nat) as H0. rewrite Nat.add_0_r in H0. rewrite H0 in Hplaces.
    split.
    + rewrite <- (length_map (fun t => (tick_ratio t, tick_left t)) ts), Hplaces.
      rewrite !length_map. unfold tick_values. rewrite length_map, length_seq. reflexivity.
    + rewrite Hplaces, map_map. reflexivity.
Qed.

Lemma createTicks_frame_places_witness :
  (0 < _step snapping_domain)%Z
  /\ exists ts,
       _ticks (state_of (createTicks_frame (snapping_slider (1 # 2)))) = Some ts
       /\ List.length ts = 11%nat.
Proof.
  destruct (createTicks_frame_places (snapping_slider (1 # 2)) eq_refl)
    as (_ & ts & Hts & Hlen & _).
  split; [reflexivity | ]. exists ts. split; [exact Hts | exact Hlen].
Defined.

Lemma snapped_value_is_a_tick_value (r : Range) (ratio : Q) (k : RangeKnob) :
  (0 < _step r)%Z -> (_min r < _max r)%Z ->
  (_step r | _min r)%Z -> (_step r | _max r)%Z ->
  _snaps r = true ->
  In (_val (set_ratio r ratio k)) (tick_values r)
  /\ _ratio (set_ratio r ratio k)
     = valueToRatio r (inject_Z (_val (set_ratio r ratio k))).
Proof.
  intros Hs Hmm Hmin Hmax Hsn. unfold set_ratio. cbn [_val _ratio]. rewrite Hsn.
  split; [ | reflexivity].
  pose proof (clamp_bounds 0 ratio 1 ltac:(lra)) as Hc.
  destruct (ratioToValue_range_aligned r (clamp 0 ratio 1) Hs ltac:(lia) Hmin Hmax Hc)
    as [[Hlo Hhi] [q Hq]].
  destruct Hmin as [a Ha]. set (v := ratioToValue r (clamp 0 ratio 1)) in *.
  assert (a <= q)%Z as Haq by nia.
  unfold tick_values. apply in_map_iff. exists (Z.to_nat (q - a)). split.
  - rewrite Z2Nat.id by lia. rewrite Hq, Ha. ring.
  - apply in_seq. split; [lia | ].
    assert (q - a <= (_max r - _min r) / _step r)%Z.
    { apply Z.div_le_lower_bound; [exact Hs | ]. rewrite Ha. nia. }
    lia.
Qed.

Lemma ticks_loop_is_tick_values (r : Range) :
  (0 < _step r)%Z ->
  ticks_loop r (ticks_fuel r) (_min r) = map (tick_of r) (tick_values r).
Proof.
  intros Hs. unfold ticks_fuel, tick_values.
  rewrite ticks_loop_values by (exact Hs || lia).
  rewrite map_map. reflexivity.
Qed.

(** X8. With snaps on, where step divides min and max (min < max), whatever ratio
    a knob is assigned, its value is one of the tick values and one of the
    ticks made by createTicks has exactly the knob's ratio and position. *)
Theorem snapped_knob_sits_on_a_tick (r : Range) (ratio : Q) (k : RangeKnob) :
  (0 < _step r)%Z -> (_min r < _max r)%Z ->
  (_step r | _min r)%Z -> (_step r | _max r)%Z ->
  _snaps r = true ->
  In (_val (set_ratio r ratio k)) (tick_values r)
  /\ exists t,
       In t (ticks_loop r (ticks_fuel r) (_min r))
       /\ tick_ratio t = _ratio (set_ratio r ratio k)
       /\ tick_left t = Percent (_ratio (set_ratio r ratio k) * 100).
Proof.
  intros Hs Hmm Hmin Hmax Hsn.
  destruct (snapped_value_is_a_tick_value r ratio k Hs Hmm Hmin Hmax Hsn) as [Hin Hratio].
  split; [exact Hin | ].
  exists (tick_of r (_val (set_ratio r ratio k))). split.
  - rewrite ticks_loop_is_tick_values by exact Hs. apply in_map, Hin.
  - unfold tick_of. cbn [tick_ratio tick_left]. rewrite Hratio. split; reflexivity.
Qed.

Lemma snapped_knob_sits_on_a_tick_witness :
  (0 < _step snapping_domain)%Z
  /\ (_min snapping_domain < _max snapping_domain)%Z
  /\ (_step snapping_domain | _min snapping_domain)%Z
  /\ (_step snapping_domain | _max snapping_domain)%Z
  /\ _snaps snapping_domain = true
  /\ In (_val (set_ratio snapping_domain (47 # 100) (knob_at snapping_domain 0 false)))
        (tick_values snapping_domain).
Proof.
  assert ((_step snapping_domain | _min snapping_domain)%Z) as Hmin
    by (exists 10%Z; reflexivity).
  assert ((_step snapping_domain | _max snapping_domain)%Z) as Hmax
    by (exists 20%Z; reflexivity).
  destruct (snapped_knob_sits_on_a_tick snapping_domain (47 # 100)
              (knob_at snapping_domain 0 false) eq_refl eq_refl Hmin Hmax eq_refl)
    as [Hin _].
  split; [reflexivity | split; [reflexivity | split; [exact Hmin | split; [exact Hmax | ]]]].
  split; [reflexivity | exact Hin].
Defined.

(** ** Reporting a change *)

Lemma updateKnob_same_value_is_silent (current : Coordinates) (rect : ClientRect)
  (r : Range) (ks : Knobs) (active : KnobRef) :
  _active r = Some active -> _knobs r = Some ks ->
  _val (set_ratio r ((x current - left rect) / width rect) (knob ks active))
  = _val (knob ks active) ->
  calls (state_of (updateKnob current rect r)) = calls r
  /\ value (state_of (updateKnob current rect r)) = value r.
Proof.
  intros Ha Hk Hsame. unfold updateKnob. rewrite Ha, Hk. cbv zeta.
  assert (_val (knob (store ks active
                        (set_ratio r ((x current - left rect) / width rect)
                           (knob ks active))) active)
          = _val (knob ks active)) as Hnew
    by (rewrite <- Hsame; destruct ks, active; reflexivity).
  rewrite Hnew, Z.eqb_refl. cbn [negb].
  match goal with
  | |- context [updateBar ?r0] =>
      destruct (updateBar_frame r0) as (_ & _ & F3 & F4); rewrite F3, F4
  end.
  split; reflexivity.
Qed.

(** X9. On a track of non-zero width and a domain with a positive step,
    updateKnob calls the change callback and emits ionChange, once each and
    in that order, exactly when the active knob's value changed, and
    otherwise leaves the exposed value alone; the reported value is the
    knob's value with one knob, and with two knobs {lower, upper} with
    lower <= upper, whichever knob moved. *)
Theorem updateKnob_reports_changes_only (current : Coordinates) (rect : ClientRect)
  (r : Range) (ks : Knobs) (active : KnobRef) :
  ~ width rect == 0 -> (0 < _step r)%Z ->
  _active r = Some active -> _knobs r = Some ks ->
  let old := _val (knob ks active) in
  let new := _val (set_ratio r ((x current - left rect) / width rect) (knob ks active)) in
  let r' := state_of (updateKnob current rect r) in
  (new = old -> calls r' = calls r /\ value r' = value r)
  /\ (new <> old ->
      calls r' = calls r ++ [OnChange (value r'); IonChange]
      /\ (_dual r = false -> value r' = JNum (inject_Z new))
      /\ (_dual r = true ->
          exists lower upper : Z,
            value r' = JObj (JNum (inject_Z lower)) (JNum (inject_Z upper))
            /\ (lower <= upper)%Z
            /\ (lower = new \/ upper = new))).
Proof.
  intros _ _ Ha Hk old new r'. subst r'. split.
  { intros E. apply (updateKnob_same_value_is_silent current rect r ks active Ha Hk E). }
  intros E. unfold updateKnob. rewrite Ha, Hk. cbv zeta.
  change (_dual (with_knobs ?k r)) with (_dual r).
  assert (_val (knob (store ks active
                        (set_ratio r ((x current - left rect) / width rect)
                           (knob ks active))) active) = new) as Hnew
    by (destruct ks, active; reflexivity).
  rewrite Hnew. fold old.
  destruct (Z.eqb_spec old new) as [E' | E']; [congruence | cbn [negb]].
  destruct (_dual r) eqn:Hd;
    match goal with
    | |- context [updateBar ?r0] =>
        destruct (updateBar_frame r0) as (_ & _ & F3 & F4); rewrite F3, F4
    end; cbn; rewrite <- app_assoc; cbn; (split; [reflexivity | ]); split;
    try discriminate; intros _.
  - eexists; eexists. split; [reflexivity | ]. split; [lia | ].
    destruct ks as [k0 | k1 k2], active; cbn in *; subst new; cbn; lia.
  - reflexivity.
Qed.

Lemma updateKnob_reports_changes_only_witness :
  exists ks,
    ~ width track == 0
    /\ (0 < _step pressed_slider)%Z
    /\ _active pressed_slider = Some RefFirst
    /\ _knobs pressed_slider = Some ks
    /\ _val (set_ratio pressed_slider ((80 - 0) / 200) (knob ks RefFirst))
       <> _val (knob ks RefFirst)
    /\ _dual pressed_slider = true
    /\ calls (state_of (updateKnob (mkCoord 80 0) track pressed_slider))
       = calls pressed_slider
         ++ [OnChange (value (state_of (updateKnob (mkCoord 80 0) track pressed_slider)));
             IonChange]
    /\ value (state_of (updateKnob (mkCoord 80 0) track pressed_slider))
       = JObj (JNum 40) (JNum 90).
Proof.
  destruct (_knobs pressed_slider) as [ks | ] eqn:Hk; [ | discriminate Hk].
  exists ks.
  assert (~ width track == 0) as Hw by (vm_compute; discriminate).
  assert ((0 < _step pressed_slider)%Z) as Hs by reflexivity.
  destruct (updateKnob_reports_changes_only (mkCoord 80 0) track pressed_slider ks RefFirst
              Hw Hs eq_refl Hk) as [_ Hchanged].
  assert (_val (set_ratio pressed_slider ((80 - 0) / 200) (knob ks RefFirst))
          <> _val (knob ks RefFirst)) as Hne.
  { vm_compute in Hk. injection Hk as <-. vm_compute. discriminate. }
  destruct (Hchanged Hne) as (Hcalls & _ & _).
  split; [exact Hw | split; [exact Hs | ]].
  split; [reflexivity | split; [reflexivity | split; [exact Hne | split; [reflexivity | ]]]].
  split; [exact Hcalls | vm_compute; reflexivity].
Defined.

(** ** When the slider throws *)

Lemma andThen_returns {S : Type} (o : result S) (f : S -> result S) (s' : S) :
  o >>> f = Returns s' -> exists s, o = Returns s /\ f s = Returns s'.
Proof. destruct o as [s | s]; cbn; [eauto | discriminate]. Qed.

Lemma updateTicks_returned (r : Range) :
  returned (updateTicks r)
  = negb (_snaps r)
    || (match _knobs r with Some _ => true | None => false end
        && match _ticks r with Some _ => true | None => false end).
Proof.
  unfold updateTicks. destruct (_snaps r), (_knobs r), (_ticks r); reflexivity.
Qed.

Lemma updateBar_returned (r : Range) (ks : Knobs) :
  _knobs r = Some ks ->
  returned (updateBar r)
  = negb (_snaps r) || match _ticks r with Some _ => true | None => false end.
Proof.
  intros Hk. unfold updateBar. rewrite Hk.
  destruct (_dual r); rewrite updateTicks_returned; cbn; rewrite Hk; reflexivity.
Qed.

(** X10. writeValue throws exactly when the value is present, the knobs exist,
    snaps is on and the ticks have not been created yet (the deferred
    createTicks has not run); the value has then already been stored. *)
Theorem writeValue_throws_before_ticks (val : jsval) (r : Range) :
  (returned (writeValue val r) = false
   <-> isPresent val = true /\ _knobs r <> None /\ _snaps r = true /\ _ticks r = None)
  /\ (isPresent val = true -> value (state_of (writeValue val r)) = val).
Proof.
  unfold writeValue. destruct (isPresent val) eqn:Hp.
  2:{ cbn. split; [ | discriminate]. split; [discriminate | intros (H & _); discriminate]. }
  change (_knobs (with_value val r)) with (_knobs r).
  destruct (_knobs r) as [ks | ] eqn:Hk.
  2:{ cbn. split; [ | reflexivity].
      split; [discriminate | intros (_ & H & _); congruence]. }
  match goal with
  | |- context [updateBar ?r0] =>
      rewrite (updateBar_returned r0 _ eq_refl);
      destruct (updateBar_frame r0) as (_ & _ & _ & F4); rewrite F4
  end.
  cbn [_snaps _ticks with_knobs with_value value].
  split; [ | reflexivity].
  destruct (_snaps r), (_ticks r); cbn; split; try discriminate;
    try (intros (_ & _ & H1 & H2); discriminate); intros _; repeat split; discriminate.
Qed.

Lemma writeValue_throws_before_ticks_witness :
  isPresent (JNum 1500) = true
  /\ _knobs (snapping_slider (1 # 2)) <> None
  /\ _snaps (snapping_slider (1 # 2)) = true
  /\ _ticks (snapping_slider (1 # 2)) = None
  /\ returned (writeValue (JNum 1500) (snapping_slider (1 # 2))) = false
  /\ value (state_of (writeValue (JNum 1500) (snapping_slider (1 # 2)))) = JNum 1500.
Proof.
  destruct (writeValue_throws_before_ticks (JNum 1500) (snapping_slider (1 # 2)))
    as [[_ Hthrows] Hstored].
  assert (_knobs (snapping_slider (1 # 2)) <> None) as Hk by discriminate.
  split; [reflexivity | split; [exact Hk | split; [reflexivity | split; [reflexivity | ]]]].
  split.
  - apply Hthrows. split; [reflexivity | split; [exact Hk | split; reflexivity]].
  - apply Hstored. reflexivity.
Defined.

(** X11. pointerDown returns normally exactly when the knobs exist and either snaps
    is off or the ticks have been created; otherwise it throws. *)
Theorem pointerDown_returns_when_ready (ev : UIEvent) (bounding : ClientRect) (r : Range) :
  returned (pointerDown ev bounding r) = true
  <-> _knobs r <> None /\ (_snaps r = false \/ _ticks r <> None).
Proof.
  unfold pointerDown, setActiveKnob. cbv zeta.
  cbn [_knobs _dual with_rect with_start].
  destruct (_knobs r) as [ks | ] eqn:Hk.
  2:{ cbn. split; [discriminate | intros [H _]; congruence]. }
  match goal with
  | |- context [if ?c then Returns (with_active (Some RefLast) ?r0) else _] =>
      assert ((if c then Returns (with_active (Some RefLast) r0)
               else Returns (with_active (Some RefFirst) r0))
              = Returns (with_active (Some (if c then RefLast else RefFirst)) r0)) as ->
        by (destruct c; reflexivity);
      set (picked := if c then RefLast else RefFirst)
  end.
  cbn [andThen]. unfold updateKnob. cbn [_active with_active _knobs with_rect with_start].
  rewrite Hk. cbv zeta.
  assert (forall r0 : Range,
             (exists ks0, _knobs r0 = Some ks0) -> _active r0 = Some picked ->
             _snaps r0 = _snaps r -> _ticks r0 = _ticks r ->
             (returned
                (updateBar r0 >>> clearListeners
                 >>> (fun r1 =>
                        match _active r1, _knobs r1 with
                        | Some active, Some ks1 =>
                            Returns
                              (with_pressed true
                                 (with_knobs
                                    (Some (store (store ks1 active (position (knob ks1 active)))
                                             active
                                             (press true
                                                (knob (store ks1 active
                                                         (position (knob ks1 active)))
                                                   active)))) r1))
                        | _, _ => Throws r1
                        end)) = true
              <-> Some ks <> None /\ (_snaps r = false \/ _ticks r <> None))) as Hgen.
  { intros r0 [ks0 Hk0] Ha0 Hs0 Ht0.
    pose proof (updateBar_returned r0 ks0 Hk0) as Hret.
    destruct (updateBar_frame r0) as (F1 & F2 & _).
    destruct (updateBar r0) as [r1 | r1]; cbn in Hret, F1, F2 |- *.
    - unfold clearListeners. rewrite F1, Hk0. cbn. rewrite F2, Ha0. cbn.
      split; [intros _ | reflexivity]. split; [discriminate | ].
      rewrite <- Hs0, <- Ht0.
      destruct (_snaps r0); [right | left; reflexivity].
      destruct (_ticks r0); [discriminate | discriminate Hret].
    - split; [discriminate | ]. intros [_ [H | H]].
      + rewrite Hs0, H in Hret. discriminate Hret.
      + rewrite Ht0 in Hret. destruct (_ticks r); [ | congruence].
        rewrite orb_true_r in Hret. discriminate Hret. }
  clearbody picked. change (_dual (with_knobs ?k ?r0)) with (_dual r).
  destruct (_dual r);
    match goal with
    | |- context [if negb ?c then _ else _] => destruct (negb c)
    end; apply Hgen; try reflexivity; eexists; reflexivity.
Qed.

Lemma pointerDown_returns_when_ready_witness :
  _knobs (dual_slider (1 # 10) (9 # 10)) <> None
  /\ _snaps (dual_slider (1 # 10) (9 # 10)) = false
  /\ returned (pointerDown (mouse_at 60) track (dual_slider (1 # 10) (9 # 10))) = true.
Proof.
  destruct (pointerDown_returns_when_ready (mouse_at 60) track
              (dual_slider (1 # 10) (9 # 10))) as [_ Hret].
  assert (_knobs (dual_slider (1 # 10) (9 # 10)) <> None) as Hk by discriminate.
  split; [exact Hk | split; [reflexivity | ]].
  apply Hret. split; [exact Hk | left; reflexivity].
Defined.

(** ** The end of a drag *)

Lemma clearListeners_returns (r r' : Range) :
  clearListeners r = Returns r' ->
  _active r' = _active r /\ _start r' = _start r /\ _pressed r' = false
  /\ calls r' = calls r /\ value r' = value r
  /\ exists ks ks',
       _knobs r = Some ks /\ _knobs r' = Some ks'
       /\ pressed (knob ks' RefFirst) = false /\ pressed (knob ks' RefLast) = false
       /\ untouched (knob ks RefFirst) (knob ks' RefFirst)
       /\ untouched (knob ks RefLast) (knob ks' RefLast).
Proof.
  unfold clearListeners. destruct (_knobs r) as [ks | ] eqn:Hk; [ | discriminate].
  intros [= <-]. cbn. repeat split.
  exists ks. eexists. split; [reflexivity | split; [reflexivity | ]].
  destruct ks; cbn; unfold untouched; cbn; repeat split.
Qed.

Lemma pointerUp_returned_state (ev : UIEvent) (r r' : Range) :
  pointerUp ev r = Returns r' ->
  _active r' = None /\ _start r' = None /\ _pressed r' = false
  /\ exists ks',
       _knobs r' = Some ks'
       /\ pressed (knob ks' RefFirst) = false
       /\ pressed (knob ks' RefLast) = false.
Proof.
  intros H. unfold pointerUp in H.
  apply andThen_returns in H. destruct H as (s3 & H & Hclear).
  apply andThen_returns in H. destruct H as (s2 & _ & H3).
  injection H3 as <-.
  destruct (clearListeners_returns _ _ Hclear)
    as (Ha & Hs & Hp & _ & _ & ks & ks' & _ & Hk' & Hp1 & Hp2 & _).
  cbn in Ha, Hs. repeat split; try assumption.
  exists ks'. repeat split; assumption.
Qed.

(** X12. pointerUp without an active knob throws and changes nothing; whenever it
    returns, no knob is active, the start coordinate is cleared and neither
    the range nor any knob is pressed. *)
Theorem pointerUp_ends_the_drag (ev : UIEvent) (r : Range) :
  (_active r = None -> pointerUp ev r = Throws r)
  /\ (forall r', pointerUp ev r = Returns r' ->
        _active r' = None /\ _start r' = None /\ _pressed r' = false
        /\ exists ks',
             _knobs r' = Some ks'
             /\ pressed (knob ks' RefFirst) = false
             /\ pressed (knob ks' RefLast) = false).
Proof.
  split.
  - intros Ha. unfold pointerUp. rewrite Ha. cbn. rewrite Ha. reflexivity.
  - intros r' H. exact (pointerUp_returned_state ev r r' H).
Qed.

Lemma pointerUp_ends_the_drag_witness :
  _active (dual_slider (1 # 10) (9 # 10)) = None
  /\ pointerUp (mouse_at 60) (dual_slider (1 # 10) (9 # 10))
     = Throws (dual_slider (1 # 10) (9 # 10))
  /\ exists r',
       pointerUp (mouse_at 80) pressed_slider = Returns r'
       /\ _active r' = None /\ _start r' = None /\ _pressed r' = false.
Proof.
  destruct (pointerUp_ends_the_drag (mouse_at 60) (dual_slider (1 # 10) (9 # 10)))
    as [Hthrows _].
  destruct (pointerUp_ends_the_drag (mouse_at 80) pressed_slider) as [_ Hends].
  split; [reflexivity | split; [exact (Hthrows eq_refl) | ]].
  destruct (pointerUp (mouse_at 80) pressed_slider) as [r' | r'] eqn:Hup;
    [ | vm_compute in Hup; discriminate Hup].
  exists r'. destruct (Hends r' eq_refl) as (Ha & Hs & Hp & _).
  split; [reflexivity | split; [exact Ha | split; [exact Hs | exact Hp]]].
Defined.

(** X13. A pointerMove that arrives after a completed pointerUp reports nothing and
    moves nothing: the call log, the exposed value and both knobs' ratio,
    value and position are unchanged. *)
Theorem stale_move_after_release_is_inert (up move : UIEvent) (r r' : Range) :
  pointerUp up r = Returns r' ->
  calls (state_of (pointerMove move r')) = calls r'
  /\ value (state_of (pointerMove move r')) = value r'
  /\ exists ks' ks'',
       _knobs r' = Some ks' /\ _knobs (state_of (pointerMove move r')) = Some ks''
       /\ untouched (knob ks' RefFirst) (knob ks'' RefFirst)
       /\ untouched (knob ks' RefLast) (knob ks'' RefLast).
Proof.
  intros Hup.
  destruct (pointerUp_returned_state up r r' Hup) as (Ha & Hs & _ & ks' & Hk' & _).
  unfold pointerMove. rewrite Hs.
  destruct (clearListeners r') as [r'' | r''] eqn:Hc.
  - destruct (clearListeners_returns _ _ Hc)
      as (_ & _ & _ & Hcalls & Hvalue & ks & ks'' & Hk & Hk'' & _ & _ & U1 & U2).
    cbn. split; [exact Hcalls | split; [exact Hvalue | ]].
    exists ks, ks''. split; [exact Hk | split; [exact Hk'' | split; [exact U1 | exact U2]]].
  - unfold clearListeners in Hc. rewrite Hk' in Hc. discriminate Hc.
Qed.

Lemma stale_move_after_release_is_inert_witness :
  exists r',
    pointerUp (mouse_at 80) pressed_slider = Returns r'
    /\ calls (state_of (pointerMove (mouse_at 150) r')) = calls r'
    /\ value (state_of (pointerMove (mouse_at 150) r')) = value r'.
Proof.
  destruct (pointerUp (mouse_at 80) pressed_slider) as [r' | r'] eqn:Hup;
    [ | vm_compute in Hup; discriminate Hup].
  exists r'.
  destruct (stale_move_after_release_is_inert (mouse_at 80) (mouse_at 150)
              pressed_slider r' Hup) as (Hcalls & Hvalue & _).
  split; [reflexivity | split; [exact Hcalls | exact Hvalue]].
Defined.

Lemma updateTicks_domain (r : Range) :
  _min (state_of (updateTicks r)) = _min r
  /\ _max (state_of (updateTicks r)) = _max r
  /\ _step (state_of (updateTicks r)) = _step r
  /\ _snaps (state_of (updateTicks r)) = _snaps r
  /\ _dual (state_of (updateTicks r)) = _dual r.
Proof.
  unfold updateTicks.
  destruct (_snaps r) eqn:Hs, (_knobs r), (_ticks r); cbn; rewrite ?Hs; repeat split.
Qed.

Lemma updateBar_domain (r : Range) :
  _min (state_of (updateBar r)) = _min r
  /\ _max (state_of (updateBar r)) = _max r
  /\ _step (state_of (updateBar r)) = _step r
  /\ _snaps (state_of (updateBar r)) = _snaps r
  /\ _dual (state_of (updateBar r)) = _dual r.
Proof.
  unfold updateBar. destruct (_knobs r); [ | cbn; repeat split].
  destruct (_dual r) eqn:Hd;
    match goal with
    | |- context [updateTicks ?r0] =>
        destruct (updateTicks_domain r0) as (H1 & H2 & H3 & H4 & H5);
        rewrite H1, H2, H3, H4, H5
    end; cbn; rewrite ?Hd; repeat split.
Qed.

(** X14. On a track of non-zero width and a domain with a positive step, a
    second updateKnob at the same pointer position reports nothing: the
    change callback and ionChange are reached only by the first of two
    identical samples. *)
Theorem updateKnob_repeated_sample_is_silent (current : Coordinates) (rect : ClientRect)
  (r : Range) (ks : Knobs) (active : KnobRef) :
  ~ width rect == 0 -> (0 < _step r)%Z ->
  _active r = Some active -> _knobs r = Some ks ->
  let r' := state_of (updateKnob current rect r) in
  calls (state_of (updateKnob current rect r')) = calls r'
  /\ value (state_of (updateKnob current rect r')) = value r'.
Proof.
  intros _ _ Ha Hk r'.
  assert (_active r' = Some active
          /\ _knobs r'
             = Some (store ks active
                       (set_ratio r ((x current - left rect) / width rect)
                          (knob ks active)))
          /\ _min r' = _min r /\ _max r' = _max r /\ _step r' = _step r
          /\ _snaps r' = _snaps r) as (Ha' & Hk' & E1 & E2 & E3 & E4).
  { subst r'. unfold updateKnob. rewrite Ha, Hk. cbv zeta.
    change (_dual (with_knobs ?k r)) with (_dual r).
    match goal with
    | |- context [if negb ?c then _ else _] => destruct (negb c)
    end; destruct (_dual r);
      match goal with
      | |- context [updateBar ?r0] =>
          destruct (updateBar_frame r0) as (F1 & F2 & _);
          destruct (updateBar_domain r0) as (D1 & D2 & D3 & D4 & _);
          rewrite F1, F2, D1, D2, D3, D4
      end; repeat split; exact Ha. }
  apply (updateKnob_same_value_is_silent current rect r' _ active Ha' Hk').
  rewrite (set_ratio_domain r r') by assumption.
  destruct ks, active; reflexivity.
Qed.

Lemma updateKnob_repeated_sample_is_silent_witness :
  exists ks,
    ~ width track == 0
    /\ (0 < _step pressed_slider)%Z
    /\ _active pressed_slider = Some RefFirst
    /\ _knobs pressed_slider = Some ks
    /\ calls (state_of (updateKnob (mkCoord 80 0) track
                          (state_of (updateKnob (mkCoord 80 0) track pressed_slider))))
       = calls (state_of (updateKnob (mkCoord 80 0) track pressed_slider)).
Proof.
  destruct (_knobs pressed_slider) as [ks | ] eqn:Hk; [ | discriminate Hk].
  exists ks.
  assert (~ width track == 0) as Hw by (vm_compute; discriminate).
  assert ((0 < _step pressed_slider)%Z) as Hs by reflexivity.
  destruct (updateKnob_repeated_sample_is_silent (mkCoord 80 0) track pressed_slider ks
              RefFirst Hw Hs eq_refl Hk) as [Hcalls _].
  split; [exact Hw | split; [exact Hs | ]].
  split; [reflexivity | split; [reflexivity | exact Hcalls]].
Defined.

(** ** Writing a value and reading it back *)

(** X15. On a domain with min < max, writeValue of a value on the step grid within
    [min, max] is read back from the knob unchanged (with two knobs, lower
    from the first knob and upper from the last), the knob's ratio is (value -
    min) / (max - min) and its position text is ratio * 100 %. *)
Theorem writeValue_reads_back (r : Range) :
  (0 < _step r)%Z -> (_min r < _max r)%Z ->
  (forall k v,
      _dual r = false -> _knobs r = Some (OneKnob k) ->
      (_min r <= v <= _max r)%Z -> (_step r | v)%Z ->
      exists k',
        _knobs (state_of (writeValue (JNum (inject_Z v)) r)) = Some (OneKnob k')
        /\ _val k' = v
        /\ _ratio k' == inject_Z (v - _min r) / inject_Z (_max r - _min r)
        /\ _x k' = Percent (_ratio k' * 100))
  /\ (forall a b lo hi,
        _dual r = true -> _knobs r = Some (TwoKnobs a b) ->
        (_min r <= lo <= _max r)%Z -> (_step r | lo)%Z ->
        (_min r <= hi <= _max r)%Z -> (_step r | hi)%Z ->
        exists a' b',
          _knobs (state_of (writeValue (JObj (JNum (inject_Z lo)) (JNum (inject_Z hi))) r))
          = Some (TwoKnobs a' b')
          /\ _val a' = lo /\ _val b' = hi
          /\ _ratio a' == inject_Z (lo - _min r) / inject_Z (_max r - _min r)
          /\ _ratio b' == inject_Z (hi - _min r) / inject_Z (_max r - _min r)
          /\ _x a' = Percent (_ratio a' * 100)
          /\ _x b' = Percent (_ratio b' * 100)).
Proof.
  intros Hs Hmm. split.
  - intros k v Hd Hk Hv Hgrid.
    destruct (set_value_on_grid r v k Hs Hmm Hv Hgrid) as [Hval Hratio].
    unfold writeValue. cbn [isPresent]. cbv zeta.
    change (_knobs (with_value ?v0 r)) with (_knobs r).
    change (_dual (with_value ?v0 r)) with (_dual r).
    rewrite Hk, Hd.
    match goal with
    | |- context [updateBar ?r0] =>
        destruct (updateBar_frame r0) as (F1 & _); rewrite F1
    end.
    cbn [_knobs with_knobs store knob].
    eexists. split; [reflexivity | ].
    cbn [position _val _ratio _x].
    change (set_value (with_value (JNum (inject_Z v)) r) (JNum (inject_Z v)) k)
      with (set_value r (JNum (inject_Z v)) k).
    split; [exact Hval | split; [exact Hratio | reflexivity]].
  - intros a b lo hi Hd Hk Hlo Hglo Hhi Hghi.
    destruct (set_value_on_grid r lo a Hs Hmm Hlo Hglo) as [Hvala Hratioa].
    destruct (set_value_on_grid r hi b Hs Hmm Hhi Hghi) as [Hvalb Hratiob].
    unfold writeValue. cbn [isPresent]. cbv zeta.
    change (_knobs (with_value ?v0 r)) with (_knobs r).
    change (_dual (with_value ?v0 r)) with (_dual r).
    rewrite Hk, Hd.
    match goal with
    | |- context [updateBar ?r0] =>
        destruct (updateBar_frame r0) as (F1 & _); rewrite F1
    end.
    cbn [_knobs with_knobs store knob get_lower get_upper].
    eexists; eexists. split; [reflexivity | ].
    cbn [position _val _ratio _x].
    change (set_value (with_value ?v0 r) (JNum (inject_Z lo)) a)
      with (set_value r (JNum (inject_Z lo)) a).
    change (set_value (with_value ?v0 r) (JNum (inject_Z hi)) b)
      with (set_value r (JNum (inject_Z hi)) b).
    repeat split; assumption.
Qed.

Lemma writeValue_reads_back_witness :
  (0 < _step (dual_slider (1 # 10) (9 # 10)))%Z
  /\ (_min (dual_slider (1 # 10) (9 # 10)) < _max (dual_slider (1 # 10) (9 # 10)))%Z
  /\ exists a' b',
       _knobs (state_of (writeValue (JObj (JNum (inject_Z 20)) (JNum (inject_Z 80)))
                           (dual_slider (1 # 10) (9 # 10))))
       = Some (TwoKnobs a' b')
       /\ _val a' = 20%Z /\ _val b' = 80%Z.
Proof.
  destruct (writeValue_reads_back (dual_slider (1 # 10) (9 # 10)) eq_refl eq_refl)
    as [_ Hdual].
  assert ((_step (dual_slider (1 # 10) (9 # 10)) | 20)%Z) as Hg20
    by (exists 20%Z; reflexivity).
  assert ((_step (dual_slider (1 # 10) (9 # 10)) | 80)%Z) as Hg80
    by (exists 80%Z; reflexivity).
  assert ((_min (dual_slider (1 # 10) (9 # 10)) <= 20
           <= _max (dual_slider (1 # 10) (9 # 10)))%Z) as Hr20
    by (vm_compute; split; discriminate).
  assert ((_min (dual_slider (1 # 10) (9 # 10)) <= 80
           <= _max (dual_slider (1 # 10) (9 # 10)))%Z) as Hr80
    by (vm_compute; split; discriminate).
  destruct (Hdual _ _ 20%Z 80%Z eq_refl eq_refl Hr20 Hg20 Hr80 Hg80)
    as (a' & b' & Hk & Ha & Hb & _).
  split; [reflexivity | split; [reflexivity | ]].
  exists a', b'. split; [exact Hk | split; [exact Ha | exact Hb]].
Defined.

(** ** A knob's first place *)

Lemma ratioToValue_of_end (r : Range) (q : Q) (e : Z) :
  (0 < _step r)%Z -> (_step r | e)%Z ->
  inject_Z (_max r - _min r) * q + inject_Z (_min r) == inject_Z e ->
  ratioToValue r q = e.
Proof.
  intros Hs [a Ha] E. unfold ratioToValue.
  rewrite (Math_round_comp _ _ E), Math_round_Z, Ha, snap_multiple by exact Hs.
  reflexivity.
Qed.

(** X16. Without a value, where step divides min and max (min < max), ngOnInit puts
    a knob at ratio 0 with value min, except the upper knob of a two-knob
    range, which it puts at ratio 1 with value max; the position text is ratio
    * 100 %. *)
Theorem ngOnInit_default_places (r : Range) (k : RangeKnob) :
  (0 < _step r)%Z -> (_min r < _max r)%Z ->
  (_step r | _min r)%Z -> (_step r | _max r)%Z ->
  isPresent (value r) = false ->
  _x (ngOnInit r k) = Percent (_ratio (ngOnInit r k) * 100)
  /\ (_dual r && upper k = false ->
      _val (ngOnInit r k) = _min r /\ _ratio (ngOnInit r k) == 0)
  /\ (_dual r && upper k = true ->
      _val (ngOnInit r k) = _max r /\ _ratio (ngOnInit r k) == 1).
Proof.
  intros Hs Hmm Hmin Hmax Habsent. unfold ngOnInit. rewrite Habsent.
  split; [reflexivity | ].
  assert (clamp 0 0 1 == 0) as C0 by (apply clamp_inside; lra).
  assert (clamp 0 1 1 == 1) as C1 by (apply clamp_inside; lra).
  assert (ratioToValue r (clamp 0 0 1) = _min r) as V0
    by (apply ratioToValue_of_end; [exact Hs | exact Hmin | rewrite C0; ring]).
  assert (ratioToValue r (clamp 0 1 1) = _max r) as V1
    by (apply ratioToValue_of_end;
        [exact Hs | exact Hmax | rewrite C1, inject_Z_minus; ring]).
  assert (~ inject_Z (_max r - _min r) == 0) as Hnz by (apply inject_Z_nonzero; lia).
  split; intros Hsel; rewrite Hsel; cbn [position set_ratio _val _ratio].
  - rewrite V0. split; [reflexivity | ].
    destruct (_snaps r); [ | exact C0].
    destruct (valueToRatio_on_grid r (_min r) Hs Hmm ltac:(lia) Hmin) as [E _].
    rewrite E, Z.sub_diag. change (inject_Z 0) with 0. field. exact Hnz.
  - rewrite V1. split; [reflexivity | ].
    destruct (_snaps r); [ | exact C1].
    destruct (valueToRatio_on_grid r (_max r) Hs Hmm ltac:(lia) Hmax) as [E _].
    rewrite E. field. exact Hnz.
Qed.

Lemma ngOnInit_default_places_witness :
  (0 < _step (set_dualKnobs true snapping_domain))%Z
  /\ (_min (set_dualKnobs true snapping_domain)
      < _max (set_dualKnobs true snapping_domain))%Z
  /\ isPresent (value (set_dualKnobs true snapping_domain)) = false
  /\ _val (ngOnInit (set_dualKnobs true snapping_domain) (mkKnob 0 0 Blank false false))
     = 1000%Z
  /\ _val (ngOnInit (set_dualKnobs true snapping_domain) (mkKnob 0 0 Blank false true))
     = 2000%Z
  /\ _ratio (ngOnInit (set_dualKnobs true snapping_domain) (mkKnob 0 0 Blank false true))
     == 1.
Proof.
  assert ((_step (set_dualKnobs true snapping_domain)
           | _min (set_dualKnobs true snapping_domain))%Z) as Hmin
    by (exists 10%Z; reflexivity).
  assert ((_step (set_dualKnobs true snapping_domain)
           | _max (set_dualKnobs true snapping_domain))%Z) as Hmax
    by (exists 20%Z; reflexivity).
  destruct (ngOnInit_default_places (set_dualKnobs true snapping_domain)
              (mkKnob 0 0 Blank false false) eq_refl eq_refl Hmin Hmax eq_refl)
    as (_ & Hlower & _).
  destruct (ngOnInit_default_places (set_dualKnobs true snapping_domain)
              (mkKnob 0 0 Blank false true) eq_refl eq_refl Hmin Hmax eq_refl)
    as (_ & _ & Hupper).
  destruct (Hlower eq_refl) as [Hl _]. destruct (Hupper eq_refl) as [Hu Hur].
  split; [reflexivity | split; [reflexivity | split; [reflexivity | ]]].
  split; [exact Hl | split; [exact Hu | exact Hur]].
Defined.

(** ** Values that do not fit, and ticks under the knob *)

(** X17. writeValue of a present value whose shape does not fit (with one knob: not
    a number or numeric string; with two knobs: no numeric lower and upper)
    stores the value but leaves every knob's ratio and value where they were. *)
Theorem writeValue_ignores_non_numbers (val : jsval) (r : Range) (ks : Knobs) :
  isPresent val = true -> _knobs r = Some ks ->
  (if _dual r then non_numeric (get_lower val) /\ non_numeric (get_upper val)
   else non_numeric val) ->
  value (state_of (writeValue val r)) = val
  /\ exists ks',
       _knobs (state_of (writeValue val r)) = Some ks'
       /\ _ratio (knob ks' RefFirst) = _ratio (knob ks RefFirst)
       /\ _val (knob ks' RefFirst) = _val (knob ks RefFirst)
       /\ _ratio (knob ks' RefLast) = _ratio (knob ks RefLast)
       /\ _val (knob ks' RefLast) = _val (knob ks RefLast).
Proof.
  intros Hp Hk Hshape.
  assert (forall v k, non_numeric v -> set_value (with_value val r) v k = k) as Hign.
  { intros v k Hv. apply set_value_ignores_non_numbers;
      intros n ->; exact Hv. }
  unfold writeValue. rewrite Hp. cbv zeta.
  change (_knobs (with_value val r)) with (_knobs r).
  change (_dual (with_value val r)) with (_dual r).
  rewrite Hk.
  match goal with
  | |- context [updateBar ?r0] =>
      destruct (updateBar_frame r0) as (F1 & _ & _ & F4); rewrite F1, F4
  end.
  split; [reflexivity | ].
  cbn [_knobs with_knobs]. eexists. split; [reflexivity | ].
  destruct (_dual r).
  - destruct Hshape as [Hlo Hhi]. rewrite !Hign by assumption.
    destruct ks; cbn; repeat split.
  - rewrite Hign by assumption. destruct ks; cbn; repeat split.
Qed.

Lemma writeValue_ignores_non_numbers_witness :
  isPresent (JNum 40) = true
  /\ _knobs (dual_slider (1 # 10) (9 # 10))
     = Some (TwoKnobs (knob_at initial (1 # 10) false) (knob_at initial (9 # 10) true))
  /\ non_numeric (get_lower (JNum 40)) /\ non_numeric (get_upper (JNum 40))
  /\ value (state_of (writeValue (JNum 40) (dual_slider (1 # 10) (9 # 10)))) = JNum 40
  /\ exists ks',
       _knobs (state_of (writeValue (JNum 40) (dual_slider (1 # 10) (9 # 10)))) = Some ks'
       /\ _val (knob ks' RefFirst) = 10%Z /\ _val (knob ks' RefLast) = 90%Z.
Proof.
  destruct (writeValue_ignores_non_numbers (JNum 40) (dual_slider (1 # 10) (9 # 10))
              (TwoKnobs (knob_at initial (1 # 10) false) (knob_at initial (9 # 10) true))
              eq_refl eq_refl (conj I I))
    as (Hvalue & ks' & Hk & _ & Hv1 & _ & Hv2).
  split; [reflexivity | split; [reflexivity | split; [exact I | split; [exact I | ]]]].
  split; [exact Hvalue | ].
  exists ks'. split; [exact Hk | split; [exact Hv1 | exact Hv2]].
Defined.

Lemma tick_values_on_grid (r : Range) (u : Z) :
  (0 < _step r)%Z -> (_step r | _min r)%Z ->
  In u (tick_values r) ->
  (_min r <= u <= _max r)%Z /\ (_step r | u)%Z.
Proof.
  intros Hs [a Ha] Hin. unfold tick_values in Hin.
  apply in_map_iff in Hin. destruct Hin as (k & <- & Hk).
  apply in_seq in Hk. destruct Hk as [_ Hk]. cbn in Hk.
  assert (0 <= (_max r - _min r) / _step r)%Z as Hq.
  { destruct (Z_lt_le_dec ((_max r - _min r) / _step r) 0) as [Hneg | Hok];
      [ | exact Hok].
    exfalso. lia. }
  assert (Z.of_nat k <= (_max r - _min r) / _step r)%Z as Hle by lia.
  assert (Z.of_nat k * _step r <= _max r - _min r)%Z.
  { transitivity (_step r * ((_max r - _min r) / _step r))%Z.
    - rewrite Z.mul_comm. apply Z.mul_le_mono_nonneg_l; lia.
    - apply Z.mul_div_le. exact Hs. }
  split; [split; nia | ].
  exists (a + Z.of_nat k)%Z. rewrite Ha at 1. ring.
Qed.

(** X18. On a one-knob snapping range where step divides min and max (min < max),
    the deferred body of createTicks returns with the ticks of min, min +
    step, ..., max, of which exactly those whose value is at most the knob's
    value are active. *)
Theorem createTicks_marks_up_to_the_knob (r : Range) (ratio : Q) (k0 : RangeKnob) :
  (0 < _step r)%Z -> (_min r < _max r)%Z ->
  (_step r | _min r)%Z -> (_step r | _max r)%Z ->
  _snaps r = true -> _dual r = false ->
  forall k, _knobs r = Some (OneKnob k) -> moved_to r ratio k0 k ->
  createTicks_frame r = Returns (with_ticks (Some (ticks_up_to r (_val k))) r).
Proof.
  intros Hs Hmm Hmin Hmax Hsn Hd k Hk [Mr Mv].
  destruct (snapped_value_is_a_tick_value r ratio k0 Hs Hmm Hmin Hmax Hsn) as [Hin Hratio].
  rewrite <- Mr, <- Mv in *.
  destruct (tick_values_on_grid r _ Hs Hmin Hin) as [Hv Hvg].
  destruct (valueToRatio_on_grid r _ Hs Hmm Hv Hvg) as [Ev _].
  unfold createTicks_frame, updateTicks.
  cbn [_snaps _knobs _ticks _dual with_ticks]. rewrite Hsn, Hk, Hd.
  unfold Range_ratio. cbn [_dual with_ticks knob]. rewrite Hd.
  rewrite ticks_loop_is_tick_values by exact Hs. rewrite map_map.
  unfold ticks_up_to. f_equal.
  change (with_ticks ?a (with_ticks ?b r)) with (with_ticks a r). f_equal. f_equal.
  apply map_ext_in. intros u Hu. unfold tick_of. cbn [tick_ratio tick_left]. f_equal.
  destruct (tick_values_on_grid r u Hs Hmin Hu) as [Hur Hug].
  destruct (valueToRatio_on_grid r u Hs Hmm Hur Hug) as [Eu _].
  assert (0 < inject_Z (_max r - _min r)) as Hpos
    by (change 0 with (inject_Z 0); rewrite <- Zlt_Qlt; lia).
  apply eq_true_iff_eq. rewrite Qle_bool_iff, Z.leb_le, Hratio, Eu, Ev.
  split; intros H.
  - unfold Qdiv in H. apply (proj1 (Qmult_le_r _ _ _ (Qinv_lt_0_compat _ Hpos))) in H.
    rewrite <- Zle_Qle in H. lia.
  - apply Qmult_le_compat_r; [rewrite <- Zle_Qle; lia | ].
    apply Qlt_le_weak, Qinv_lt_0_compat, Hpos.
Qed.

Lemma createTicks_marks_up_to_the_knob_witness :
  (0 < _step (snapping_slider (1 # 2)))%Z
  /\ (_min (snapping_slider (1 # 2)) < _max (snapping_slider (1 # 2)))%Z
  /\ (_step (snapping_slider (1 # 2)) | _min (snapping_slider (1 # 2)))%Z
  /\ (_step (snapping_slider (1 # 2)) | _max (snapping_slider (1 # 2)))%Z
  /\ _snaps (snapping_slider (1 # 2)) = true
  /\ _dual (snapping_slider (1 # 2)) = false
  /\ _knobs (snapping_slider (1 # 2))
     = Some (OneKnob (knob_at snapping_domain (1 # 2) false))
  /\ moved_to (snapping_slider (1 # 2)) (1 # 2) (mkKnob 0 0 Blank false false)
       (knob_at snapping_domain (1 # 2) false)
  /\ createTicks_frame (snapping_slider (1 # 2))
     = Returns (with_ticks (Some (ticks_up_to (snapping_slider (1 # 2)) 1500))
                  (snapping_slider (1 # 2))).
Proof.
  assert ((_step (snapping_slider (1 # 2)) | _min (snapping_slider (1 # 2)))%Z) as Hmin
    by (exists 10%Z; reflexivity).
  assert ((_step (snapping_slider (1 # 2)) | _max (snapping_slider (1 # 2)))%Z) as Hmax
    by (exists 20%Z; reflexivity).
  assert (moved_to (snapping_slider (1 # 2)) (1 # 2) (mkKnob 0 0 Blank false false)
            (knob_at snapping_domain (1 # 2) false)) as Hmoved
    by (split; reflexivity).
  pose proof (createTicks_marks_up_to_the_knob (snapping_slider (1 # 2)) (1 # 2)
                (mkKnob 0 0 Blank false false) eq_refl eq_refl Hmin Hmax eq_refl eq_refl
                (knob_at snapping_domain (1 # 2) false) eq_refl Hmoved) as H.
  repeat (split; [first [reflexivity | assumption] | ]). exact H.
Defined.

End SliderMore.

Module PullMore.
Import Pull.
Import PullFacts.
Import Fixtures.

(** ** Samples the engine ignores *)

Lemma busy_states (w : Refresher) :
  busy w = true <-> state w = Refreshing \/ state w = Cancelling \/ state w = Completing.
Proof.
  unfold busy. destruct (state w); cbn; split; intros H;
    try discriminate; try reflexivity; auto;
    destruct H as [H | [H | H]]; discriminate H.
Qed.

Lemma gesture_ignored_while_busy (g : Gesture) (w : Refresher) :
  busy w = true -> gesture g w = w.
Proof.
  intros Hb. destruct g as [detail | ]; cbn.
  - unfold onMove. rewrite Hb. destruct (multitouch detail); reflexivity.
  - unfold onEnd. apply busy_states in Hb.
    destruct Hb as [-> | [-> | ->]]; reflexivity.
Qed.

Lemma gestures_while_busy (l : list Gesture) (w : Refresher) :
  busy w = true -> gestures l w = w.
Proof.
  intros Hb. induction l as [ | g l IH]; [reflexivity | ].
  cbn. rewrite gesture_ignored_while_busy by exact Hb. exact IH.
Qed.

(** X19. While the refresher is Refreshing, Cancelling or Completing, any stream of
    move and end gestures leaves it exactly as it was (onMove returns 1 for a
    multi-touch sample and 2 otherwise); a multi-touch move sample is ignored
    in every state. *)
Theorem gestures_ignored_while_busy (l : list Gesture) (detail : Detail) (w : Refresher) :
  (busy w = true ->
   gestures l w = w /\ onMove detail w = (if multitouch detail then 1%Z else 2%Z, w))
  /\ (multitouch detail = true -> onMove detail w = (1%Z, w)).
Proof.
  split.
  - intros Hb. split; [apply gestures_while_busy, Hb | ].
    unfold onMove. rewrite Hb. destruct (multitouch detail); reflexivity.
  - intros Hm. unfold onMove. rewrite Hm. reflexivity.
Qed.

Lemma gestures_ignored_while_busy_witness :
  busy overshot = true
  /\ multitouch (mkDetail (Some 2%nat) 40) = true
  /\ gestures [Move (mkDetail (Some 1%nat) 10); Release; Move (mkDetail None (-5))] overshot
     = overshot
  /\ onMove (mkDetail (Some 2%nat) 40) (initial 0) = (1%Z, initial 0).
Proof.
  destruct (gestures_ignored_while_busy
              [Move (mkDetail (Some 1%nat) 10); Release; Move (mkDetail None (-5))]
              (mkDetail (Some 2%nat) 40) overshot) as [Hbusy _].
  destruct (gestures_ignored_while_busy [] (mkDetail (Some 2%nat) 40) (initial 0))
    as [_ Hmulti].
  split; [reflexivity | split; [reflexivity | split]].
  - exact (proj1 (Hbusy eq_refl)).
  - exact (Hmulti eq_refl).
Defined.

(** ** The branches of a move *)

(** X20. A single-touch move sample with deltaY <= 0, met while not busy, sets
    state to Inactive and progress to 0, leaves didStart as it was, and writes
    the cleared style (returning 5) exactly when an offset was applied,
    otherwise writes nothing (returning 6); afterwards no offset counts as
    applied. *)
Theorem onMove_upward_resets (detail : Detail) (w : Refresher) :
  multitouch detail = false -> busy w = false -> deltaY detail <= 0 ->
  state (snd (onMove detail w)) = Inactive
  /\ progress (snd (onMove detail w)) = 0
  /\ appliedStyles (snd (onMove detail w)) = false
  /\ didStart (snd (onMove detail w)) = didStart w
  /\ fst (onMove detail w) = (if appliedStyles w then 5%Z else 6%Z)
  /\ effects (snd (onMove detail w))
     = effects w
       ++ Assign Inactive
          :: (if appliedStyles w
              then [DomWrite (mkStyle None EmptyString EmptyString EmptyString)]
              else []).
Proof.
  intros Hm Hb Hd. unfold onMove. rewrite Hm, Hb.
  apply Qle_bool_iff in Hd. rewrite Hd.
  cbn [with_state with_progress effect appliedStyles].
  destruct (appliedStyles w) eqn:Ha; cbn; rewrite ?Ha; cbn; rewrite <- ?app_assoc;
    repeat split.
Qed.

Lemma onMove_upward_resets_witness :
  multitouch (mkDetail (Some 1%nat) (-5)) = false
  /\ busy (snd (onMove (mkDetail (Some 1%nat) 30) (initial 0))) = false
  /\ deltaY (mkDetail (Some 1%nat) (-5)) <= 0
  /\ state (snd (onMove (mkDetail (Some 1%nat) (-5))
                   (snd (onMove (mkDetail (Some 1%nat) 30) (initial 0))))) = Inactive
  /\ fst (onMove (mkDetail (Some 1%nat) (-5))
            (snd (onMove (mkDetail (Some 1%nat) 30) (initial 0)))) = 5%Z.
Proof.
  assert (deltaY (mkDetail (Some 1%nat) (-5)) <= 0) as Hd by (vm_compute; discriminate).
  destruct (onMove_upward_resets (mkDetail (Some 1%nat) (-5))
              (snd (onMove (mkDetail (Some 1%nat) 30) (initial 0))) eq_refl eq_refl Hd)
    as (Hstate & _ & _ & _ & Hret & _).
  split; [reflexivity | split; [reflexivity | split; [exact Hd | ]]].
  split; [exact Hstate | exact Hret].
Defined.

Lemma starts_snoc (l : list Effect) (e : Effect) :
  starts (l ++ [e])
  = (starts l + match e with Emit ionStart => 1 | _ => 0 end)%nat.
Proof.
  unfold starts. rewrite filter_app, length_app. cbn.
  destruct e as [ | | | []]; reflexivity.
Qed.

Lemma pulls_snoc (l : list Effect) (e : Effect) :
  pulls (l ++ [e])
  = (pulls l + match e with Emit ionPull => 1 | _ => 0 end)%nat.
Proof.
  unfold pulls. rewrite filter_app, length_app. cbn.
  destruct e as [ | | | []]; reflexivity.
Qed.

Lemma refreshes_snoc (l : list Effect) (e : Effect) :
  refreshes (l ++ [e])
  = (refreshes l + match e with Emit ionRefresh => 1 | _ => 0 end)%nat.
Proof.
  unfold refreshes. rewrite filter_app, length_app. cbn.
  destruct e as [ | | | []]; reflexivity.
Qed.

Ltac count_effects :=
  cbn -[Qltb Qgtb Qdiv Qplus starts pulls refreshes];
  rewrite ?starts_snoc, ?pulls_snoc, ?refreshes_snoc.

(** X21. A single-touch sample with deltaY > 0, met while not busy and (if
    Inactive) scrolled to the top, with pullMin > 0, sets progress to deltaY /
    pullMin, emits ionPull once and ionStart once unless it was emitted
    before; below pullMin the engine is Pulling with progress < 1 (return 2),
    from pullMin up to pullMin + pullDelta it is Ready with progress >= 1
    (return 4), and neither emits a refresh. *)
Theorem onMove_threshold_bands (detail : Detail) (w : Refresher) :
  multitouch detail = false -> busy w = false ->
  (state w = Inactive -> scrollTop w <= 0) ->
  0 < pullMin w -> 0 < deltaY detail ->
  let w' := snd (onMove detail w) in
  didStart w' = true
  /\ progress w' = deltaY detail / pullMin w
  /\ pulls (effects w') = S (pulls (effects w))
  /\ starts (effects w') = (starts (effects w) + (if didStart w then 0 else 1))%nat
  /\ (deltaY detail < pullMin w ->
      fst (onMove detail w) = 2%Z /\ state w' = Pulling /\ progress w' < 1
      /\ appliedStyles w' = true
      /\ refreshes (effects w') = refreshes (effects w))
  /\ (pullMin w <= deltaY detail -> deltaY detail <= pullMin w + pullDelta w ->
      fst (onMove detail w) = 4%Z /\ state w' = Ready /\ 1 <= progress w'
      /\ appliedStyles w' = true
      /\ refreshes (effects w') = refreshes (effects w)).
Proof.
  intros Hm Hb Hscroll Hmin Hpos w'. subst w'. unfold onMove. rewrite Hm, Hb.
  assert (Qle_bool (deltaY detail) 0 = false) as -> by (apply Qle_bool_false; lra).
  assert (Qeq_bool (deltaY detail) 0 = false) as ->.
  { apply not_true_iff_false. intros E. apply Qeq_bool_iff in E. lra. }
  assert (Qgtb (deltaY detail) 0 = true) as Hoff by (apply Qltb_true; exact Hpos).
  assert (deltaY detail / pullMin w < 1 <-> deltaY detail < pullMin w) as Hlt1.
  { split; intros H.
    - apply (Qmult_lt_r _ _ (pullMin w) Hmin) in H.
      rewrite Qmult_1_l in H. unfold Qdiv in H.
      rewrite <- Qmult_assoc, (Qmult_comm (/ pullMin w)), Qmult_inv_r, Qmult_1_r in H by lra.
      exact H.
    - apply Qlt_shift_div_r; [exact Hmin | lra]. }
  assert (1 <= deltaY detail / pullMin w <-> pullMin w <= deltaY detail) as Hge1.
  { split; intros H.
    - apply Qnot_lt_le. intros Hc. apply Hlt1 in Hc. lra.
    - apply Qle_shift_div_l; [exact Hmin | lra]. }
  assert ((if state_eqb (state w) Inactive then Qgtb (scrollTop w) 0 else false) = false)
    as Hgate.
  { destruct (state_eqb (state w) Inactive) eqn:Hst; [ | reflexivity].
    apply Qltb_false, Hscroll, state_eqb_eq, Hst. }
  destruct (state_eqb (state w) Inactive) eqn:Hst; rewrite ?Hgate;
    destruct (didStart w) eqn:Hds; count_effects; rewrite ?Hds; count_effects;
    rewrite ?Hoff;
    (destruct (Qltb (deltaY detail) (pullMin w)) eqn:Hl;
     [apply Qltb_true in Hl
     | apply Qltb_false in Hl;
       destruct (Qgtb (deltaY detail) (pullMin w + pullDelta w)) eqn:Hg;
       [apply Qltb_true in Hg | apply Qltb_false in Hg]]);
    count_effects; rewrite ?Hoff;
    (split; [first [reflexivity | assumption]
            | split; [reflexivity | split; [lia | split; [lia | split]]]]);
    intros; try (exfalso; lra);
    repeat split; try reflexivity; try lia;
    try (apply Hlt1; assumption); try (apply Hge1; assumption).
Qed.

Lemma onMove_threshold_bands_witness :
  multitouch (mkDetail (Some 1%nat) 70) = false
  /\ busy (initial 0) = false
  /\ scrollTop (initial 0) <= 0
  /\ 0 < pullMin (initial 0)
  /\ 0 < deltaY (mkDetail (Some 1%nat) 70)
  /\ pullMin (initial 0) <= 70 /\ 70 <= pullMin (initial 0) + pullDelta (initial 0)
  /\ fst (onMove (mkDetail (Some 1%nat) 70) (initial 0)) = 4%Z
  /\ state (snd (onMove (mkDetail (Some 1%nat) 70) (initial 0))) = Ready
  /\ 1 <= progress (snd (onMove (mkDetail (Some 1%nat) 70) (initial 0))).
Proof.
  assert (scrollTop (initial 0) <= 0) as Hs by (vm_compute; discriminate).
  assert (pullMin (initial 0) <= 70) as Hlo by (vm_compute; discriminate).
  assert (70 <= pullMin (initial 0) + pullDelta (initial 0)) as Hhi
    by (vm_compute; discriminate).
  destruct (onMove_threshold_bands (mkDetail (Some 1%nat) 70) (initial 0)
              eq_refl eq_refl (fun _ => Hs) eq_refl eq_refl)
    as (_ & _ & _ & _ & _ & Hready).
  destruct (Hready Hlo Hhi) as (Hret & Hstate & Hprog & _).
  split; [reflexivity | split; [reflexivity | split; [exact Hs | ]]].
  split; [reflexivity | split; [reflexivity | split; [exact Hlo | split; [exact Hhi | ]]]].
  split; [exact Hret | split; [exact Hstate | exact Hprog]].
Defined.

(** ** Letting go *)

(** X22. Letting go in Ready begins the refresh (state Refreshing, one ionRefresh,
    content parked at pullMin with the snap-back duration, no timer armed);
    letting go in Pulling cancels (state Cancelling, one fallback timer armed,
    whose expiry resets the engine to Inactive with progress 0); in any other
    state it does nothing. *)
Theorem onEnd_outcomes (w : Refresher) :
  (state w = Ready ->
   state (onEnd w) = Refreshing
   /\ refreshes (effects (onEnd w)) = S (refreshes (effects w))
   /\ timers (onEnd w) = timers w
   /\ effects (onEnd w)
      = effects w
        ++ [Assign Refreshing;
            DomWrite (mkStyle (if Qgtb (pullMin w) 0 then Some (pullMin w) else None)
                        (snapbackDuration w) EmptyString "hidden");
            Emit ionRefresh])
  /\ (state w = Pulling ->
      state (onEnd w) = Cancelling
      /\ refreshes (effects (onEnd w)) = refreshes (effects w)
      /\ timers (onEnd w) = timers w ++ [next_timer w]
      /\ is_reset (timeout_fires (next_timer w) (onEnd w)))
  /\ (state w <> Ready -> state w <> Pulling -> onEnd w = w).
Proof.
  unfold onEnd. split; [ | split].
  - intros ->. cbn -[Qgtb refreshes]. rewrite <- !app_assoc. cbn -[Qgtb refreshes].
    repeat split.
    replace (effects w ++ [Assign Refreshing;
               DomWrite (mkStyle (if Qgtb (pullMin w) 0 then Some (pullMin w) else None)
                           (snapbackDuration w) EmptyString "hidden");
               Emit ionRefresh])
      with (((effects w ++ [Assign Refreshing])
             ++ [DomWrite (mkStyle (if Qgtb (pullMin w) 0 then Some (pullMin w) else None)
                             (snapbackDuration w) EmptyString "hidden")])
            ++ [Emit ionRefresh])
      by (rewrite <- !app_assoc; reflexivity).
    rewrite !refreshes_snoc. lia.
  - intros ->. cbn -[refreshes timeout_fires]. rewrite !refreshes_snoc.
    split; [reflexivity | split; [lia | split; [reflexivity | ]]].
    rewrite timeout_fires_pending by (cbn; rewrite in_app_iff; cbn; auto).
    apply close_callback_resets.
  - intros H1 H2. destruct (state w); cbn; try reflexivity; contradiction.
Qed.

Lemma onEnd_outcomes_witness :
  state (snd (onMove (mkDetail (Some 1%nat) 30) (initial 0))) = Pulling
  /\ state (onEnd (snd (onMove (mkDetail (Some 1%nat) 30) (initial 0)))) = Cancelling
  /\ is_reset (timeout_fires 0
                 (onEnd (snd (onMove (mkDetail (Some 1%nat) 30) (initial 0)))))
  /\ state (snd (onMove (mkDetail (Some 1%nat) 70) (initial 0))) = Ready
  /\ state (onEnd (snd (onMove (mkDetail (Some 1%nat) 70) (initial 0)))) = Refreshing.
Proof.
  destruct (onEnd_outcomes (snd (onMove (mkDetail (Some 1%nat) 30) (initial 0))))
    as (_ & Hpulling & _).
  destruct (onEnd_outcomes (snd (onMove (mkDetail (Some 1%nat) 70) (initial 0))))
    as (Hready & _).
  destruct (Hpulling eq_refl) as (Hc & _ & _ & Hreset).
  destruct (Hready eq_refl) as (Hr & _).
  split; [reflexivity | split; [exact Hc | split; [exact Hreset | ]]].
  split; [reflexivity | exact Hr].
Defined.

(** ** What a stream of gestures can emit *)

Lemma gesture_start_potential (g : Gesture) (w : Refresher) :
  (starts (effects (gesture g w)) + (if didStart (gesture g w) then 0 else 1)
   = starts (effects w) + (if didStart w then 0 else 1))%nat.
Proof.
  destruct g as [detail | ]; cbn [gesture].
  - unfold onMove.
    destruct (multitouch detail); [reflexivity | ].
    destruct (busy w); [reflexivity | ].
    destruct (Qle_bool (deltaY detail) 0).
    { cbn [with_state with_progress effect appliedStyles].
      destruct (appliedStyles w) eqn:Ha; count_effects; rewrite ?Ha; count_effects;
        destruct (didStart w); lia. }
    destruct (state_eqb (state w) Inactive);
      [destruct (Qgtb (scrollTop w) 0); [reflexivity | ] | ];
      destruct (Qeq_bool (deltaY detail) 0); count_effects;
      try (destruct (didStart w); lia);
      destruct (didStart w) eqn:Hds; count_effects; rewrite ?Hds; count_effects;
      repeat match goal with
             | |- context [if ?c then _ else _] => destruct c; count_effects
             end; lia.
  - unfold onEnd.
    destruct (state_eqb (state w) Ready);
      [ | destruct (state_eqb (state w) Pulling)]; count_effects;
      destruct (didStart w); lia.
Qed.

Lemma gesture_keeps_didStart (g : Gesture) (w : Refresher) :
  didStart w = true -> didStart (gesture g w) = true.
Proof.
  intros Hd. destruct g as [detail | ]; cbn [gesture].
  - unfold onMove.
    repeat match goal with
           | |- context [if ?c then _ else _] => destruct c
           end; cbn; rewrite ?Hd; try reflexivity; exact Hd.
  - unfold onEnd.
    repeat match goal with
           | |- context [if ?c then _ else _] => destruct c
           end; cbn; exact Hd.
Qed.

(** X23. Over any stream of move and end gestures ionStart is emitted at most once,
    and not at all if didStart was already set when the stream began. *)
Theorem ionStart_once_per_drag (l : list Gesture) (w : Refresher) :
  (starts (effects (gestures l w)) <= starts (effects w) + (if didStart w then 0 else 1))%nat
  /\ (didStart w = true -> starts (effects (gestures l w)) = starts (effects w)).
Proof.
  assert (forall l w,
             (starts (effects (gestures l w)) + (if didStart (gestures l w) then 0 else 1)
              = starts (effects w) + (if didStart w then 0 else 1))%nat
             /\ (didStart w = true -> didStart (gestures l w) = true)) as Hpot.
  { clear. intros l. induction l as [ | g l IH]; intros w; [split; auto | ].
    cbn [gestures fold_left]. change (fold_left (fun w g => gesture g w) l (gesture g w))
      with (gestures l (gesture g w)).
    destruct (IH (gesture g w)) as [IH1 IH2]. split.
    - rewrite IH1. apply gesture_start_potential.
    - intros Hd. apply IH2, gesture_keeps_didStart, Hd. }
  destruct (Hpot l w) as [H Hmono]. split.
  - destruct (didStart (gestures l w)); lia.
  - intros Hd. rewrite (Hmono Hd), Hd in H. lia.
Qed.

Lemma ionStart_once_per_drag_witness :
  didStart (snd (onMove (mkDetail (Some 1%nat) 30) (initial 0))) = true
  /\ starts (effects (gestures [Move (mkDetail (Some 1%nat) (-5));
                                 Move (mkDetail (Some 1%nat) 40)]
                        (snd (onMove (mkDetail (Some 1%nat) 30) (initial 0)))))
     = starts (effects (snd (onMove (mkDetail (Some 1%nat) 30) (initial 0)))).
Proof.
  destruct (ionStart_once_per_drag
              [Move (mkDetail (Some 1%nat) (-5)); Move (mkDetail (Some 1%nat) 40)]
              (snd (onMove (mkDetail (Some 1%nat) 30) (initial 0)))) as [_ Honce].
  split; [reflexivity | exact (Honce eq_refl)].
Defined.

Lemma gesture_refresh_then_busy (g : Gesture) (w : Refresher) :
  refreshes (effects (gesture g w)) = refreshes (effects w)
  \/ (refreshes (effects (gesture g w)) = S (refreshes (effects w))
      /\ busy (gesture g w) = true).
Proof.
  destruct g as [detail | ]; cbn [gesture].
  - unfold onMove.
    destruct (multitouch detail); [left; reflexivity | ].
    destruct (busy w); [left; reflexivity | ].
    destruct (Qle_bool (deltaY detail) 0).
    { cbn [with_state with_progress effect appliedStyles].
      destruct (appliedStyles w) eqn:Ha; count_effects; rewrite ?Ha; count_effects;
        left; lia. }
    destruct (state_eqb (state w) Inactive);
      [destruct (Qgtb (scrollTop w) 0); [left; reflexivity | ] | ];
      destruct (Qeq_bool (deltaY detail) 0); count_effects; try (left; lia);
      destruct (didStart w) eqn:Hds; count_effects; rewrite ?Hds; count_effects;
      (destruct (Qltb (deltaY detail) (pullMin w));
       [ | destruct (Qgtb (deltaY detail) (pullMin w + pullDelta w))]);
      count_effects; first [left; lia | right; split; [lia | reflexivity]].
  - unfold onEnd.
    destruct (state_eqb (state w) Ready);
      [ | destruct (state_eqb (state w) Pulling)]; count_effects;
      first [left; lia | right; split; [lia | reflexivity]].
Qed.

(** X24. Over any stream of move and end gestures ionRefresh is emitted at most
    once, and if it was emitted the engine is Refreshing at the end of the
    stream, so gestures alone never begin a second refresh. *)
Theorem one_refresh_per_drag (l : list Gesture) (w : Refresher) :
  (refreshes (effects w) <= refreshes (effects (gestures l w))
   <= S (refreshes (effects w)))%nat
  /\ (refreshes (effects (gestures l w)) = S (refreshes (effects w)) ->
      state (gestures l w) = Refreshing).
Proof.
  revert w. induction l as [ | g l IH]; intros w.
  - cbn. split; [lia | intros H; lia].
  - cbn [gestures fold_left].
    change (fold_left (fun w g => gesture g w) l (gesture g w))
      with (gestures l (gesture g w)).
    destruct (gesture_refresh_then_busy g w) as [Hsame | [Hone Hbusy]].
    + rewrite <- Hsame. apply IH.
    + rewrite (gestures_while_busy l (gesture g w) Hbusy), Hone.
      split; [lia | intros _].
      apply busy_states in Hbusy.
      destruct g as [detail | ]; cbn [gesture] in *.
      * revert Hone Hbusy. unfold onMove.
        destruct (multitouch detail); [cbn [snd]; intros H; lia | ].
        destruct (busy w) eqn:Hb; [cbn [snd]; intros H; lia | ].
        destruct (Qle_bool (deltaY detail) 0).
        { cbn [with_state with_progress effect appliedStyles].
          destruct (appliedStyles w) eqn:Ha; count_effects; rewrite ?Ha; count_effects;
            intros H; lia. }
        destruct (state_eqb (state w) Inactive);
          [destruct (Qgtb (scrollTop w) 0); [cbn [snd with_progress effects]; intros H; lia | ] | ];
          destruct (Qeq_bool (deltaY detail) 0); count_effects; try (intros H; lia);
          destruct (didStart w) eqn:Hds; count_effects; rewrite ?Hds; count_effects;
          (destruct (Qltb (deltaY detail) (pullMin w));
           [ | destruct (Qgtb (deltaY detail) (pullMin w + pullDelta w))]);
          count_effects; intros H _; first [lia | reflexivity].
      * revert Hone Hbusy. unfold onEnd.
        destruct (state_eqb (state w) Ready);
          [ | destruct (state_eqb (state w) Pulling)]; count_effects;
          intros H _; first [lia | reflexivity].
Qed.

Lemma one_refresh_per_drag_witness :
  refreshes (effects (gestures [Move (mkDetail (Some 1%nat) 70); Release;
                                Move (mkDetail (Some 1%nat) 130); Release]
                       (initial 0)))
  = S (refreshes (effects (initial 0)))
  /\ state (gestures [Move (mkDetail (Some 1%nat) 70); Release;
                      Move (mkDetail (Some 1%nat) 130); Release]
              (initial 0))
     = Refreshing.
Proof.
  destruct (one_refresh_per_drag
              [Move (mkDetail (Some 1%nat) 70); Release;
               Move (mkDetail (Some 1%nat) 130); Release] (initial 0)) as [_ Hstate].
  assert (refreshes (effects (gestures [Move (mkDetail (Some 1%nat) 70); Release;
                                         Move (mkDetail (Some 1%nat) 130); Release]
                                (initial 0)))
          = S (refreshes (effects (initial 0)))) as Hone by reflexivity.
  split; [exact Hone | exact (Hstate Hone)].
Defined.

(** ** From the start gate to the first sample *)

(** X25. canStart answers true only for a single-touch sample on an Inactive engine
    scrolled to the top; after it and onStart, the first single-touch move
    sample with deltaY > 0 is never turned away: it returns 2, 3 or 4, leaves
    the engine Pulling, Ready or Refreshing and emits ionPull once. *)
Theorem canStart_opens_the_pull (start detail : Detail) (w : Refresher) :
  canStart start w = true ->
  multitouch start = false /\ state w = Inactive /\ scrollTop w <= 0
  /\ (multitouch detail = false -> 0 < deltaY detail ->
      In (fst (onMove detail (onStart w))) [2%Z; 3%Z; 4%Z]
      /\ In (state (snd (onMove detail (onStart w)))) [Pulling; Ready; Refreshing]
      /\ pulls (effects (snd (onMove detail (onStart w))))
         = S (pulls (effects w))).
Proof.
  unfold canStart. intros H.
  destruct (multitouch start); [discriminate | ].
  destruct (state_eqb (state w) Inactive) eqn:Hst; [ | discriminate].
  destruct (Qgtb (scrollTop w) 0) eqn:Hsc; [discriminate | ].
  apply state_eqb_eq in Hst. pose proof Hsc as Hsc'. apply Qltb_false in Hsc'.
  split; [reflexivity | split; [exact Hst | split; [exact Hsc' | ]]].
  intros Hm Hpos. unfold onMove. rewrite Hm.
  assert (Qle_bool (deltaY detail) 0 = false) as -> by (apply Qle_bool_false; lra).
  assert (Qeq_bool (deltaY detail) 0 = false) as ->.
  { apply not_true_iff_false. intros E. apply Qeq_bool_iff in E. lra. }
  cbn -[Qltb Qgtb Qdiv Qplus pulls In]. rewrite Hsc.
  destruct (didStart w) eqn:Hds; count_effects; rewrite ?Hds; count_effects;
    (destruct (Qltb (deltaY detail) (pullMin w));
     [ | destruct (Qgtb (deltaY detail) (pullMin w + pullDelta w))]);
    count_effects; (split; [cbn; tauto | split; [cbn; tauto | lia]]).
Qed.

Lemma canStart_opens_the_pull_witness :
  canStart (mkDetail (Some 1%nat) 0) (initial 0) = true
  /\ multitouch (mkDetail (Some 1%nat) 25) = false
  /\ 0 < deltaY (mkDetail (Some 1%nat) 25)
  /\ In (fst (onMove (mkDetail (Some 1%nat) 25) (onStart (initial 0)))) [2%Z; 3%Z; 4%Z].
Proof.
  destruct (canStart_opens_the_pull (mkDetail (Some 1%nat) 0) (mkDetail (Some 1%nat) 25)
              (initial 0) eq_refl) as (_ & _ & _ & Hfirst).
  destruct (Hfirst eq_refl eq_refl) as [Hret _].
  split; [reflexivity | split; [reflexivity | split; [reflexivity | exact Hret]]].
Defined.

(** ** The flag that remembers an applied offset *)

Lemma last_write_offset_snoc (l : list Effect) (e : Effect) :
  last_write_offset (l ++ [e])
  = match e with
    | DomWrite st => match transform st with Some _ => true | None => false end
    | _ => last_write_offset l
    end.
Proof. unfold last_write_offset. rewrite fold_left_app. destruct e; reflexivity. Qed.

Lemma setCss_flag (y : Q) (d : string) (o : bool) (dl : string) (w : Refresher) :
  flag_matches (setCss y d o dl w).
Proof.
  unfold flag_matches, setCss. cbn -[Qgtb last_write_offset].
  rewrite last_write_offset_snoc. cbn -[Qgtb]. destruct (Qgtb y 0); reflexivity.
Qed.

Lemma effect_flag (e : Effect) (w : Refresher) :
  (forall st, e <> DomWrite st) -> flag_matches w -> flag_matches (effect e w).
Proof.
  unfold flag_matches. intros He H. cbn -[last_write_offset].
  rewrite last_write_offset_snoc. destruct e; try exact H.
  exfalso. apply (He st). reflexivity.
Qed.

Lemma with_state_flag (s : RefresherState) (w : Refresher) :
  flag_matches w -> flag_matches (with_state s w).
Proof.
  unfold flag_matches. intros H. cbn -[last_write_offset].
  rewrite last_write_offset_snoc. exact H.
Qed.

(** X26. appliedStyles always says whether the last queued style write carried an
    offset: this holds for the component as constructed and is kept by
    onStart, onMove, onEnd, complete, cancel and the expiry of a close timer. *)
Theorem appliedStyles_tracks_last_write (detail : Detail) (t : nat) (w : Refresher) :
  flag_matches (configured (pullMin w) (pullDelta w) (scrollTop w))
  /\ (flag_matches w ->
      flag_matches (onStart w)
      /\ flag_matches (snd (onMove detail w))
      /\ flag_matches (onEnd w)
      /\ flag_matches (complete w)
      /\ flag_matches (cancel w)
      /\ flag_matches (timeout_fires t w)).
Proof.
  split; [reflexivity | intros H].
  split; [apply with_state_flag; exact H | ].
  split.
  { unfold onMove.
    destruct (multitouch detail); [exact H | ].
    destruct (busy w); [exact H | ].
    destruct (Qle_bool (deltaY detail) 0).
    { cbn [with_state with_progress effect appliedStyles].
      destruct (appliedStyles w) eqn:Ha; cbn [snd]; [apply setCss_flag | ].
      unfold flag_matches in *. cbn -[last_write_offset].
      rewrite last_write_offset_snoc, ?Ha. rewrite <- H. symmetry. exact Ha. }
    destruct (state_eqb (state w) Inactive);
      [destruct (Qgtb (scrollTop w) 0); [exact H | ] | ];
      destruct (Qeq_bool (deltaY detail) 0); cbv zeta; cbn [snd];
      try apply setCss_flag;
      match goal with
      | |- context [if negb ?c then _ else _] => destruct c
      end; cbn [negb];
      repeat match goal with
             | |- context [if ?c then _ else _] => destruct c
             end; cbn [snd];
      unfold beginRefresh;
      repeat first
        [ apply with_state_flag
        | apply effect_flag; [intros st; discriminate | ]
        | apply setCss_flag ];
      unfold flag_matches; cbn -[last_write_offset Qgtb];
      rewrite ?last_write_offset_snoc; cbn -[Qgtb]; reflexivity. }
  split.
  { unfold onEnd.
    destruct (state_eqb (state w) Ready);
      [ | destruct (state_eqb (state w) Pulling)]; [ | | exact H].
    - unfold beginRefresh. apply effect_flag; [intros st; discriminate | ].
      apply setCss_flag.
    - apply setCss_flag. }
  split; [apply setCss_flag | ].
  split; [apply setCss_flag | ].
  unfold timeout_fires. destruct (existsb (Nat.eqb t) (timers w)); [ | exact H].
  apply setCss_flag.
Qed.

Lemma appliedStyles_tracks_last_write_witness :
  flag_matches (initial 0)
  /\ flag_matches (snd (onMove (mkDetail (Some 1%nat) 30) (initial 0)))
  /\ flag_matches (complete (initial 0)).
Proof.
  destruct (appliedStyles_tracks_last_write (mkDetail (Some 1%nat) 30) 0%nat (initial 0))
    as [Hinit Hkeeps].
  destruct (Hkeeps Hinit) as (_ & Hmove & _ & Hcomplete & _).
  split; [exact Hinit | split; [exact Hmove | exact Hcomplete]].
Defined.

End PullMore.
